(** * MCP Connector Awareness Engine: calibration, enforcement, health

    A shallow embedding of the TypeScript sources
    - [src/types.ts]          (data model),
    - [src/enforcer.ts]       (class [MCPEnforcer]),
    - [src/calibrator.ts]     (class [MCPCalibrator]),
    - [src/state-manager.ts]  (class [StateManager]),
    - the health monitor      (class [HealthMonitor]),
    together with the properties the specification states about them. *)

From Stdlib Require Import ZArith String List Bool Lia.
From stdpp Require Import base option gmap strings list fin_maps.
From Equations Require Import Equations.
From Equations.Prop Require Import Logic.

Local Open Scope string_scope.
Local Open Scope list_scope.
Local Open Scope nat_scope.
Set Warnings "-register-all".

(* ===================================================================== *)
(** * JavaScript values, errors and the effect monad                      *)
(* ===================================================================== *)

Module Js.

(** Values of type [any] as they come out of [JSON.parse] or of a
    connector client.  Numbers are restricted to integers; an object is
    the list of its own properties, one entry per key. *)
Inductive val : Type :=
| VUndef
| VNull
| VBool (b : bool)
| VNum (n : Z)
| VStr (s : string)
| VArr (items : list val)
| VObj (fields : list (string * val)).

(** ToBoolean. *)
Definition truthy (v : val) : bool :=
  match v with
  | VUndef | VNull => false
  | VBool b => b
  | VNum n => negb (n =? 0)%Z
  | VStr s => negb (String.eqb s "")
  | VArr _ | VObj _ => true
  end.

Definition nullish (v : val) : bool :=
  match v with VUndef | VNull => true | _ => false end.

(** [!a], [a && b], [a || b] (operands already evaluated: every operand
    in the sources is a property read without side effects). *)
Definition js_not (a : val) : val := VBool (negb (truthy a)).
Definition js_and (a b : val) : val := if truthy a then b else a.
Definition js_or (a b : val) : val := if truthy a then a else b.

Fixpoint assoc (k : string) (fs : list (string * val)) : option val :=
  match fs with
  | [] => None
  | (k', v) :: fs' => if String.eqb k k' then Some v else assoc k fs'
  end.

(** [v.k] for a value that is neither [null] nor [undefined], [k] being
    one of the identifier keys of the sources (never an index, never
    [length]): only objects carry such a property. *)
Definition get (v : val) (k : string) : val :=
  match v with
  | VObj fs => default VUndef (assoc k fs)
  | _ => VUndef
  end.

(** [v?.k]. *)
Definition opt_get (v : val) (k : string) : val :=
  if nullish v then VUndef else get v k.

(** [v[0]] for a value that is neither [null] nor [undefined]. *)
Definition get0 (v : val) : val :=
  match v with
  | VArr items => default VUndef (head items)
  | VStr (String c _) => VStr (String c EmptyString)
  | VObj fs => default VUndef (assoc "0" fs)
  | _ => VUndef
  end.

(** The one-character strings a string iterates over. *)
Fixpoint chars (s : string) : list val :=
  match s with
  | EmptyString => []
  | String c s' => VStr (String c EmptyString) :: chars s'
  end.

(** Thrown values.  The engine, the file system and [JSON.parse] throw
    [Error] objects, of which only [message] is ever read; the promise of
    a connector client may reject with any value at all ([catch (error)]
    is untyped): [null], [undefined], a string, an object with or without
    a [message]. *)
Inductive Error : Type :=
| mkError (text : string)
| Rejection (v : val).

(** The [TypeError] of reading, and of setting, property [k] of [v],
    which is [null] or [undefined] (V8's wording). *)
Definition which_nullish (v : val) : string :=
  match v with VNull => "null" | _ => "undefined" end.

Definition TypeError (v : val) (k : string) : Error :=
  mkError ("Cannot read properties of " +:+ which_nullish v +:+
           " (reading '" +:+ k +:+ "')").

Definition TypeErrorSet (v : val) (k : string) : Error :=
  mkError ("Cannot set properties of " +:+ which_nullish v +:+
           " (setting '" +:+ k +:+ "')").

Inductive outcome (A : Type) : Type :=
| Ok (a : A)
| Throw (e : Error).
Arguments Ok {A} a.
Arguments Throw {A} e.

(** [v.k] where [v] may be anything: reading through [null] or
    [undefined] throws. *)
Definition read (v : val) (k : string) : outcome val :=
  if nullish v then Throw (TypeError v k) else Ok (get v k).

Definition read0 (v : val) : outcome val :=
  if nullish v then Throw (TypeError v "0") else Ok (get0 v).

(** [error.message] for a caught value: the text of an [Error] object;
    for any other value a property read like any other, which throws on
    [null] and [undefined] and gives [undefined] when there is no such
    property. *)
Definition message (e : Error) : outcome val :=
  match e with
  | mkError text => Ok (VStr text)
  | Rejection v => read v "message"
  end.

(** [...v] in an argument list: arrays and strings are the iterables of
    this value type; anything else throws. *)
Definition spread (v : val) : outcome (list val) :=
  match v with
  | VArr items => Ok items
  | VStr s => Ok (chars s)
  | _ => Throw (mkError "Spread syntax requires ...iterable[Symbol.iterator] to be a function")
  end.

(** Computations over a mutable state [S] that may throw.  The state
    reached when the exception is raised is kept: a write made before a
    [throw] stays made. *)
Definition M (S A : Type) : Type := S -> outcome A * S.

Definition ret {S A} (a : A) : M S A := fun s => (Ok a, s).

Definition bind {S A B} (m : M S A) (k : A -> M S B) : M S B :=
  fun s =>
    match m s with
    | (Ok a, s') => k a s'
    | (Throw e, s') => (Throw e, s')
    end.

Definition throw {S A} (e : Error) : M S A := fun s => (Throw e, s).

(** [try { body } catch (error) { handler }]. *)
Definition try_catch {S A} (body : M S A) (handler : Error -> M S A) : M S A :=
  fun s =>
    match body s with
    | (Ok a, s') => (Ok a, s')
    | (Throw e, s') => handler e s'
    end.

(** An awaited promise, looked at after it settled. *)
Definition settle {S A} (m : M S A) : M S (outcome A) :=
  fun s => let (o, s') := m s in (Ok o, s').

Definition lift {S A} (o : outcome A) : M S A := fun s => (o, s).
Definition gets {S A} (f : S -> A) : M S A := fun s => (Ok (f s), s).
Definition modify {S} (f : S -> S) : M S unit := fun s => (Ok tt, f s).

End Js.

Import Js.

Declare Scope js_scope.
Delimit Scope js_scope with js.
Notation "x <~ c ;; k" := (bind c (fun x => k))
  (at level 100, c at next level, right associativity) : js_scope.
Notation "c ;;; k" := (bind c (fun _ => k))
  (at level 100, right associativity) : js_scope.
Local Open Scope js_scope.

(** [s.startsWith(p)] and [s.includes(p)] for the ASCII fragments of the
    sources. *)
Definition startsWith (s p : string) : bool := String.prefix p s.

Fixpoint includes (s p : string) : bool :=
  String.prefix p s ||
  match s with
  | EmptyString => false
  | String _ s' => includes s' p
  end.

(* ===================================================================== *)
(** * types.ts                                                            *)
(* ===================================================================== *)

(** Parameter bags are mutable objects and several records may point to
    the same one, so they live in a store and a [ToolCall] holds a
    reference.  [params] is typed [any]: besides an object it may be
    [null] or [undefined] (a caller that left it out), on which every
    property read throws.  Primitive parameter bags are not modelled. *)
Abbreviation loc := positive.

Inductive pvalue : Type :=
| PObj (l : loc)
| PNull
| PUndefined.

(** The value of a parameter bag that is not an object. *)
Definition nullish_val (p : pvalue) : val :=
  match p with PNull => VNull | _ => VUndef end.

Record ToolCall : Type := mkToolCall {
  tool : string;
  params : pvalue
}.

Record EnforcementResult : Type := mkResult {
  original : ToolCall;
  enhanced : ToolCall;
  modifications : list string;
  enforce_pagination : option bool;
  chain_operations : option (list ToolCall)
}.

(** Instants ([timestamp], [last_verified], [last_check]) are readings of
    the clock. *)
Inductive CStatus : Type := authenticated | failed | pending.

Record ConnectorStatus : Type := mkConnectorStatus {
  status : CStatus;
  user : option val;
  workspace : option val;
  team : option val;
  stats : option val;
  bot : option val;
  error : option val;
  last_verified : nat
}.

Record Connectors (A : Type) : Type := mkConnectors {
  asana : option A;
  linear : option A;
  github : option A;
  notion : option A
}.
Arguments mkConnectors {A}.
Arguments asana {A}.
Arguments linear {A}.
Arguments github {A}.
Arguments notion {A}.

Record CalibrationState : Type := mkCalibrationState {
  timestamp : nat;
  connectors : Connectors ConnectorStatus
}.

Inductive HStatus : Type := healthy | hfailed | warning.
Inductive Overall : Type := ohealthy | degraded | owarning.

Record ConnectorHealth : Type := mkConnectorHealth {
  hstatus : HStatus;
  latency_ms : Z;
  last_check : nat;
  herror : option val
}.

Record HealthStatus : Type := mkHealthStatus {
  htimestamp : nat;
  overall : Overall;
  hconnectors : Connectors ConnectorHealth
}.

(** [await Promise.all([a, b, c, d])].  The four computations each run to
    completion, in declaration order (they share no state but the console
    and the clock); the aggregate rejects with the first rejection. *)
Definition promise_all4 {S A} (a b c d : M S A) : M S (A * A * A * A) :=
  ra <~ settle a ;;
  rb <~ settle b ;;
  rc <~ settle c ;;
  rd <~ settle d ;;
  match ra, rb, rc, rd with
  | Ok x, Ok y, Ok z, Ok u => ret (x, y, z, u)
  | Throw e, _, _, _ => throw e
  | _, Throw e, _, _ => throw e
  | _, _, Throw e, _ => throw e
  | _, _, _, Throw e => throw e
  end.

(* ===================================================================== *)
(** * The process and its surroundings                                    *)
(* ===================================================================== *)

(** What the process can change or observe: the files it wrote, the lines
    it logged (without their pictograms and interpolated values), and the
    clock. *)
Record World : Type := mkWorld {
  files : gmap string string;
  console : list string;
  clock : nat
}.

(** What the surroundings decide: which file-system calls fail, how the
    serialisers print, and what [+] gives on two arbitrary values. *)
Record Env : Type := mkEnv {
  mkdir_error : string -> option Error;
  writeFile_error : string -> option Error;
  JSON_stringify : CalibrationState -> string;
  JSON_stringify_health : HealthStatus -> string;
  yaml_dump : CalibrationState -> outcome string;
  js_plus : val -> val -> outcome val
}.

(** The connector clients ([./connectors/*]) as seen by one run: what each
    of their calls settles to. *)
Record Clients : Type := mkClients {
  asana_getCurrentUser : outcome val;
  asana_listWorkspaces : outcome val;
  linear_getCurrentUser : outcome val;
  linear_getTeams : outcome val;
  github_getAuthenticatedUser : outcome val;
  github_listRepositories : outcome val;
  notion_getBotUser : outcome val
}.

Definition console_log (line : string) : M World unit :=
  modify (fun w => mkWorld (files w) (console w ++ [line]) (clock w)).

Definition console_error (line : string) : M World unit := console_log line.

(** [new Date().toISOString()], [Date.now()]. *)
Definition now : M World nat := gets clock.

Definition fs_mkdir (env : Env) (dir : string) : M World unit :=
  fun w =>
    match mkdir_error env dir with
    | Some e => (Throw e, w)
    | None => (Ok tt, w)
    end.

Definition fs_writeFile (env : Env) (path content : string) : M World unit :=
  fun w =>
    match writeFile_error env path with
    | Some e => (Throw e, w)
    | None => (Ok tt, mkWorld (<[path := content]> (files w)) (console w) (clock w))
    end.

(* ===================================================================== *)
(** * state-manager.ts                                                    *)
(* ===================================================================== *)

Module StateManager.

(** Paths relative to [process.cwd()]. *)
Definition dataDir : string := "data".
Definition calibrationPath : string := "data/calibration.json".
Definition healthPath : string := "data/health.json".
Definition yamlExportPath : string := "calibration-state.yaml".

Definition exportYAML (env : Env) (state : CalibrationState) : M World unit :=
  try_catch
    (yamlContent <~ lift (yaml_dump env state) ;;
     fs_writeFile env yamlExportPath yamlContent ;;;
     console_log "YAML export created")
    (fun error => console_error "Failed to export YAML").

Definition save (env : Env) (state : CalibrationState) : M World unit :=
  try_catch
    (fs_mkdir env dataDir ;;;
     fs_writeFile env calibrationPath (JSON_stringify env state) ;;;
     exportYAML env state ;;;
     console_log "Calibration state saved")
    (fun error =>
       console_error "Failed to save calibration state" ;;;
       throw error).

Definition saveHealth (env : Env) (health : HealthStatus) : M World unit :=
  try_catch
    (fs_mkdir env dataDir ;;;
     fs_writeFile env healthPath (JSON_stringify_health env health) ;;;
     console_log "Health status saved")
    (fun error =>
       console_error "Failed to save health status" ;;;
       throw error).

End StateManager.

(* ===================================================================== *)
(** * calibrator.ts                                                       *)
(* ===================================================================== *)

Module Calibrator.

(** The object a [catch] block returns: [error.message] is read first,
    then the clock. *)
Definition failedStatus (error : Error) : M World ConnectorStatus :=
  m <~ lift (message error) ;;
  t <~ now ;;
  ret (mkConnectorStatus failed None None None None None (Some m) t).

Definition calibrateAsana (c : Clients) : M World ConnectorStatus :=
  try_catch
    (console_log "Calibrating Asana..." ;;;
     user <~ lift (asana_getCurrentUser c) ;;
     workspaces <~ lift (asana_listWorkspaces c) ;;
     name <~ lift (read user "name") ;;
     email <~ lift (read user "email") ;;
     gid <~ lift (read user "gid") ;;
     w0 <~ lift (read0 workspaces) ;;
     let ws :=
       if truthy w0 then
         VObj [("name", get w0 "name"); ("gid", get w0 "gid");
               ("is_organization", get w0 "is_organization")]
       else VNull in
     t <~ now ;;
     ret (mkConnectorStatus authenticated
            (Some (VObj [("name", name); ("email", email); ("gid", gid)]))
            (Some ws) None None None None t))
    (fun error =>
       console_error "Asana calibration failed" ;;;
       failedStatus error).

Definition calibrateLinear (c : Clients) : M World ConnectorStatus :=
  try_catch
    (console_log "Calibrating Linear..." ;;;
     user <~ lift (linear_getCurrentUser c) ;;
     teams <~ lift (linear_getTeams c) ;;
     name <~ lift (read user "name") ;;
     email <~ lift (read user "email") ;;
     id <~ lift (read user "id") ;;
     admin <~ lift (read user "admin") ;;
     t0 <~ lift (read0 teams) ;;
     let tm :=
       if truthy t0 then
         VObj [("name", get t0 "name"); ("key", get t0 "key"); ("id", get t0 "id")]
       else VNull in
     t <~ now ;;
     ret (mkConnectorStatus authenticated
            (Some (VObj [("name", name); ("email", email); ("id", id); ("admin", admin)]))
            None (Some tm) None None None t))
    (fun error =>
       console_error "Linear calibration failed" ;;;
       failedStatus error).

Definition calibrateGitHub (env : Env) (c : Clients) : M World ConnectorStatus :=
  try_catch
    (console_log "Calibrating GitHub..." ;;;
     user <~ lift (github_getAuthenticatedUser c) ;;
     repos <~ lift (github_listRepositories c) ;;
     login <~ lift (read user "login") ;;
     email <~ lift (read user "email") ;;
     id <~ lift (read user "id") ;;
     public_repos <~ lift (read user "public_repos") ;;
     private_repos <~ lift (read user "total_private_repos") ;;
     total <~ lift (js_plus env public_repos private_repos) ;;
     t <~ now ;;
     ret (mkConnectorStatus authenticated
            (Some (VObj [("login", login); ("email", email); ("id", id); ("repos", total)]))
            None None
            (Some (VObj [("public_repos", public_repos); ("private_repos", private_repos)]))
            None None t))
    (fun error =>
       console_error "GitHub calibration failed" ;;;
       failedStatus error).

Definition calibrateNotion (c : Clients) : M World ConnectorStatus :=
  try_catch
    (console_log "Calibrating Notion..." ;;;
     bot <~ lift (notion_getBotUser c) ;;
     inner <~ lift (read bot "bot") ;;
     workspace <~ lift (read inner "workspace_name") ;;
     workspaceId <~ lift (read inner "workspace_id") ;;
     owner <~ lift (read inner "owner") ;;
     owner_user <~ lift (read owner "user") ;;
     person <~ lift (read owner_user "person") ;;
     owner_email <~ lift (read person "email") ;;
     let plan := if truthy (get inner "workspace_limits") then "Plus+AI" else "Basic" in
     t <~ now ;;
     ret (mkConnectorStatus authenticated
            None
            (Some (VObj [("name", workspace); ("id", workspaceId);
                         ("owner", owner_email); ("plan", VStr plan)]))
            None None
            (Some (VObj [("id", get bot "id"); ("name", get bot "name")]))
            None t))
    (fun error =>
       console_error "Notion calibration failed" ;;;
       failedStatus error).

Definition calibrate (env : Env) (c : Clients) : M World CalibrationState :=
  console_log "Starting MCP Connector Calibration..." ;;;
  ts <~ now ;;
  probes <~ promise_all4 (calibrateAsana c) (calibrateLinear c)
                         (calibrateGitHub env c) (calibrateNotion c) ;;
  let '(asanaState, linearState, githubState, notionState) := probes in
  let state :=
    mkCalibrationState ts
      (mkConnectors (Some asanaState) (Some linearState)
                    (Some githubState) (Some notionState)) in
  StateManager.save env state ;;;
  console_log "Calibration Complete" ;;;
  ret state.

Definition verifyAsana (c : Clients) : M World bool :=
  try_catch (_ <~ lift (asana_getCurrentUser c) ;; ret true) (fun _ => ret false).

Definition verifyLinear (c : Clients) : M World bool :=
  try_catch (_ <~ lift (linear_getCurrentUser c) ;; ret true) (fun _ => ret false).

Definition verifyGitHub (c : Clients) : M World bool :=
  try_catch (_ <~ lift (github_getAuthenticatedUser c) ;; ret true) (fun _ => ret false).

Definition verifyNotion (c : Clients) : M World bool :=
  try_catch (_ <~ lift (notion_getBotUser c) ;; ret true) (fun _ => ret false).

(** [verify()]; [loaded] is what [stateManager.load()] settles to. *)
Definition verify (loaded : outcome (option CalibrationState)) (c : Clients)
  : M World bool :=
  console_log "Verifying calibration state..." ;;;
  state <~ lift loaded ;;
  match state with
  | None => console_log "No calibration state found" ;;; ret false
  | Some _ =>
      verifications <~ promise_all4 (verifyAsana c) (verifyLinear c)
                                    (verifyGitHub c) (verifyNotion c) ;;
      let '(a, l, g, n) := verifications in
      let allValid := forallb (fun v => v) [a; l; g; n] in
      console_log (if allValid then "All connectors verified"
                   else "Some connectors failed verification") ;;;
      ret allValid
  end.

End Calibrator.

(* ===================================================================== *)
(** * enforcer.ts                                                         *)
(* ===================================================================== *)

Module Enforcer.

(** The store of parameter bags. *)
Abbreviation heap := (gmap loc (gmap string val)).

(** The bag a reference points to.  References of a running program
    always point into the store; anything else reads as an empty bag. *)
Definition deref (h : heap) (l : loc) : gmap string val := default ∅ (h !! l).

(** What one enforcement pass mutates: the store and the [result] object
    under construction. *)
Record EState : Type := mkEState {
  hp : heap;
  res : EnforcementResult
}.

(** [p.k] *)
Definition read_param (p : pvalue) (k : string) : M EState val :=
  fun s =>
    match p with
    | PObj l => (Ok (default VUndef (deref (hp s) l !! k)), s)
    | _ => (Throw (TypeError (nullish_val p) k), s)
    end.

(** [p.k = v] *)
Definition write_param (p : pvalue) (k : string) (v : val) : M EState unit :=
  fun s =>
    match p with
    | PObj l =>
        (Ok tt, mkEState (<[l := <[k := v]> (deref (hp s) l)]> (hp s)) (res s))
    | _ => (Throw (TypeErrorSet (nullish_val p) k), s)
    end.

(** [{ k: v }]: a new object. *)
Definition alloc (o : gmap string val) : M EState loc :=
  fun s =>
    let l := fresh (dom (hp s)) in
    (Ok l, mkEState (<[l := o]> (hp s)) (res s)).

(** [result.modifications.push(m)] *)
Definition push_modification (m : string) : M EState unit :=
  modify (fun s =>
    let r := res s in
    mkEState (hp s)
      (mkResult (original r) (enhanced r) (modifications r ++ [m])
                (enforce_pagination r) (chain_operations r))).

Definition set_enforce_pagination (b : bool) : M EState unit :=
  modify (fun s =>
    let r := res s in
    mkEState (hp s)
      (mkResult (original r) (enhanced r) (modifications r)
                (Some b) (chain_operations r))).

Definition set_chain_operations (c : list ToolCall) : M EState unit :=
  modify (fun s =>
    let r := res s in
    mkEState (hp s)
      (mkResult (original r) (enhanced r) (modifications r)
                (enforce_pagination r) (Some c))).

Definition maxPaginationAttempts : nat := 100.
Definition maxChainDepth : nat := 5.

(** One block of [injectIdentifiers]:
    [if (tool.startsWith(prefix) && !params[key] && state?.connectors?.[conn]?.[field]) {
       result.enhanced.params[key] = state.connectors[conn][field][idkey];
       result.modifications.push(msg); }] *)
Definition inject_block (state : val) (prefix key conn field idkey msg : string)
  : M EState unit :=
  e <~ gets (fun s => enhanced (res s)) ;;
  if startsWith (tool e) prefix then
    cur <~ read_param (params e) key ;;
    if truthy cur then ret tt
    else
      let entity := opt_get (opt_get (opt_get state "connectors") conn) field in
      if truthy entity then
        e' <~ gets (fun s => enhanced (res s)) ;;
        write_param (params e') key (get entity idkey) ;;;
        push_modification msg
      else ret tt
  else ret tt.

Definition injectIdentifiers (state : val) : M EState unit :=
  inject_block state "asana" "workspace" "asana" "workspace" "gid"
               "Injected Asana workspace ID" ;;;
  inject_block state "linear" "teamId" "linear" "team" "id"
               "Injected Linear team ID" ;;;
  inject_block state "notion" "workspace_id" "notion" "workspace" "id"
               "Injected Notion workspace ID" ;;;
  inject_block state "github" "owner" "github" "user" "login"
               "Injected GitHub owner".

Definition hasNameInsteadOfId (params : pvalue) : M EState val :=
  name <~ read_param params "name" ;;
  id <~ read_param params "id" ;;
  gid <~ read_param params "gid" ;;
  teamId <~ read_param params "teamId" ;;
  teamName <~ read_param params "teamName" ;;
  projectName <~ read_param params "projectName" ;;
  projectId <~ read_param params "projectId" ;;
  ret (js_or
         (js_or
            (js_and (js_and (js_and name (js_not id)) (js_not gid)) (js_not teamId))
            (js_and teamName (js_not teamId)))
         (js_and projectName (js_not projectId))).

(** Stub in the sources: logs and returns [null]. *)
Definition searchForId (tool : string) (params : pvalue) : M EState val :=
  ret VNull.

(** [Object.assign(target, source)] for a [source] produced by
    [searchForId]. *)
Fixpoint assign_fields (target : pvalue) (fs : list (string * val)) : M EState unit :=
  match fs with
  | [] => ret tt
  | (k, v) :: fs' => write_param target k v ;;; assign_fields target fs'
  end.

Definition object_assign (target : pvalue) (source : val) : M EState unit :=
  match target with
  | PObj _ =>
      match source with
      | VObj fs => assign_fields target fs
      | _ => ret tt
      end
  | _ => throw (mkError "Cannot convert undefined or null to object")
  end.

Definition resolveIdentifiers : M EState unit :=
  e <~ gets (fun s => enhanced (res s)) ;;
  c <~ hasNameInsteadOfId (params e) ;;
  if truthy c then
    resolved <~ searchForId (tool e) (params e) ;;
    if truthy resolved then
      e' <~ gets (fun s => enhanced (res s)) ;;
      object_assign (params e') resolved ;;;
      push_modification "Resolved name to ID"
    else ret tt
  else ret tt.

Definition paginationTools : list string :=
  [ "list_tasks"; "list_projects"; "list_issues"; "get_issues";
    "list_pull_requests"; "list_commits"; "search_";
    "get_comments"; "list_cycles" ].

Definition requiresPagination (toolCall : ToolCall) : bool :=
  existsb (fun pattern => includes (tool toolCall) pattern) paginationTools.

Definition chainingPatterns : list string :=
  [ "create_issue"; "create_task"; "create_project" ].

Definition requiresChaining (toolCall : ToolCall) : bool :=
  existsb (fun pattern => includes (tool toolCall) pattern) chainingPatterns.

Definition buildOperationChain (toolCall : ToolCall) : M EState (list ToolCall) :=
  let chain := [toolCall] in
  if includes (tool toolCall) "create_issue" then
    labels <~ read_param (params toolCall) "labels" ;;
    if truthy labels then
      l <~ alloc {[ "labels" := labels ]} ;;
      ret (chain ++ [mkToolCall "add_labels" (PObj l)])
    else ret chain
  else ret chain.

(** Rule 3 and rule 4 of [enforce]. *)
Definition paginationRule (toolCall : ToolCall) : M EState unit :=
  if requiresPagination toolCall then
    set_enforce_pagination true ;;;
    push_modification "Pagination enforcement enabled"
  else ret tt.

Definition chainingRule (toolCall : ToolCall) : M EState unit :=
  if requiresChaining toolCall then
    chain <~ buildOperationChain toolCall ;;
    set_chain_operations chain ;;;
    push_modification "Operation chaining configured"
  else ret tt.

(** The body of [enforce] once the calibration state is loaded
    ([state] is [null] when none is stored). *)
Definition enforce_rules (state : val) (toolCall : ToolCall) : M EState unit :=
  injectIdentifiers state ;;;
  resolveIdentifiers ;;;
  paginationRule toolCall ;;;
  chainingRule toolCall.

(** [enforce(toolCall)].  [loaded] is what [stateManager.load()] gave;
    [{ ...toolCall }] is a new record with the same [tool] and the same
    [params] reference. *)
Definition enforce (loaded : outcome val) (toolCall : ToolCall) (h : heap)
  : outcome EnforcementResult * heap :=
  match loaded with
  | Throw e => (Throw e, h)
  | Ok state =>
      let result :=
        mkResult toolCall (mkToolCall (tool toolCall) (params toolCall)) [] None None in
      match enforce_rules state toolCall (mkEState h result) with
      | (Ok _, s) => (Ok (res s), hp s)
      | (Throw e, s) => (Throw e, hp s)
      end
  end.

(** ** [executeWithPagination] *)

Record PageRequest : Type := mkPageRequest {
  req_tool : string;
  req_params : gmap string val
}.

(** The variables of the loop. *)
Record PageLoop : Type := mkPageLoop {
  results : list val;
  hasMore : val;
  cursor : val;
  attempts : nat
}.

(** The calls made to [executeTool], in order, each with what it settled
    to. *)
Definition Trace : Type := list (PageRequest * outcome val).

(** [{ ...toolCall.params }] *)
Definition spread_params (h : heap) (p : pvalue) : gmap string val :=
  match p with
  | PObj l => deref h l
  | _ => ∅
  end.

(** [params] of one iteration: the copy, with the cursor under its three
    names when there is one. *)
Definition page_params (base : gmap string val) (cursor : val) : gmap string val :=
  if truthy cursor then
    <["offset" := cursor]> (<["after" := cursor]> (<["cursor" := cursor]> base))
  else base.

(** The [if / else if / else if] over the response: the new [results],
    [hasMore] and [cursor]. *)
Definition consume (response : val) (st : PageLoop) : outcome (list val * val * val) :=
  match response with
  | VArr items => Ok (results st ++ items, VBool false, cursor st)
  | _ =>
      match read response "nodes" with
      | Throw e => Throw e
      | Ok nodes =>
          if truthy nodes then
            match spread nodes with
            | Throw e => Throw e
            | Ok items =>
                let pageInfo := get response "pageInfo" in
                Ok (results st ++ items,
                    js_or (opt_get pageInfo "hasNextPage") (VBool false),
                    opt_get pageInfo "endCursor")
            end
          else
            let data := get response "data" in
            if truthy data then
              match spread data with
              | Throw e => Throw e
              | Ok items =>
                  let next := get response "next_page" in
                  Ok (results st ++ items, VBool (truthy next), next)
              end
            else Ok (results st, hasMore st, cursor st)
      end
  end.

(** The stub the sources ship as [executeTool]. *)
Definition executeTool_mock (n : nat) (request : PageRequest) : outcome val :=
  Ok (VObj [("nodes", VArr []); ("pageInfo", VObj [("hasNextPage", VBool false)])]).

Section Pagination.

(** [executeTool] is the interface to the tool runtime: what the [n]-th
    call settles to may depend on the request and on [n]. *)
Variable executeTool : nat -> PageRequest -> outcome val.
Variable t : string.
Variable base : gmap string val.

Definition page_request (st : PageLoop) : PageRequest :=
  mkPageRequest t (page_params base (cursor st)).

(** [while (hasMore && attempts < this.maxPaginationAttempts) { ... }] *)
Equations? paginate (st : PageLoop) (tr : Trace) : outcome (list val) * Trace
  by wf (maxPaginationAttempts - attempts st) lt :=
paginate st tr
  with inspect (truthy (hasMore st) && (attempts st <? maxPaginationAttempts)) := {
  | exist _ false _ => (Ok (results st), tr)
  | exist _ true Hguard with executeTool (attempts st) (page_request st) := {
    | Throw e => (Throw e, tr ++ [(page_request st, Throw e)])
    | Ok response with consume response st := {
      | Throw e => (Throw e, tr ++ [(page_request st, Ok response)])
      | Ok (rs, more, cur) =>
          paginate (mkPageLoop rs more cur (S (attempts st)))
                   (tr ++ [(page_request st, Ok response)]) } } }.
Proof.
  apply andb_prop in Hguard as [_ Hlt]. apply Nat.ltb_lt in Hlt.
  unfold maxPaginationAttempts in *. simpl. lia.
Qed.

End Pagination.

Definition executeWithPagination (executeTool : nat -> PageRequest -> outcome val)
    (h : heap) (toolCall : ToolCall) : outcome (list val) * Trace :=
  paginate executeTool (tool toolCall) (spread_params h (params toolCall))
           (mkPageLoop [] (VBool true) VNull 0) [].

End Enforcer.

(* ===================================================================== *)
(** * The health monitor (class [HealthMonitor])                          *)
(* ===================================================================== *)

Module HealthMonitor.

Definition healthOf (verifyConnector : M World bool) : M World ConnectorHealth :=
  start <~ now ;;
  try_catch
    (valid <~ verifyConnector ;;
     t <~ now ;;
     let latency := (Z.of_nat t - Z.of_nat start)%Z in
     last <~ now ;;
     ret (mkConnectorHealth (if valid then healthy else hfailed) latency last None))
    (fun error =>
       t <~ now ;;
       last <~ now ;;
       m <~ lift (message error) ;;
       ret (mkConnectorHealth hfailed (Z.of_nat t - Z.of_nat start)%Z last (Some m))).

Definition checkAsana (c : Clients) : M World ConnectorHealth :=
  healthOf (Calibrator.verifyAsana c).
Definition checkLinear (c : Clients) : M World ConnectorHealth :=
  healthOf (Calibrator.verifyLinear c).
Definition checkGitHub (c : Clients) : M World ConnectorHealth :=
  healthOf (Calibrator.verifyGitHub c).
Definition checkNotion (c : Clients) : M World ConnectorHealth :=
  healthOf (Calibrator.verifyNotion c).

(** [Object.values(connectors)]: the entries that are set, in insertion
    order. *)
Definition values {A} (cs : Connectors A) : list A :=
  omap (fun o => o) [asana cs; linear cs; github cs; notion cs].

Definition is_healthy (s : HStatus) : bool :=
  match s with healthy => true | _ => false end.
Definition is_failed (s : HStatus) : bool :=
  match s with hfailed => true | _ => false end.

(** "Determine overall health". *)
Definition determineOverall (statuses : list HStatus) : Overall :=
  if forallb is_healthy statuses then ohealthy
  else if existsb is_failed statuses then degraded
  else owarning.

(** The [health] object of one cycle once the four checks are in. *)
Definition assembleHealth (timestamp : nat) (checks : ConnectorHealth * ConnectorHealth *
                                                   ConnectorHealth * ConnectorHealth)
  : HealthStatus :=
  let '(c0, c1, c2, c3) := checks in
  let cs := mkConnectors (Some c0) (Some c1) (Some c2) (Some c3) in
  let statuses := map hstatus (values cs) in
  mkHealthStatus timestamp (determineOverall statuses) cs.

(** The headline only; the line per connector is left out. *)
Definition logHealthStatus (health : HealthStatus) : M World unit :=
  console_log (match overall health with
               | ohealthy => "Overall Health: HEALTHY"
               | degraded => "Overall Health: DEGRADED"
               | owarning => "Overall Health: WARNING"
               end).

Definition alertOnFailure (health : HealthStatus) : M World unit :=
  console_log "ALERT: Connector health degraded!" ;;;
  let failedConnectors :=
    filter (fun ch => is_failed (hstatus ch) = true) (values (hconnectors health)) in
  if (0 <? length failedConnectors) then console_log "Failed connectors" else ret tt.

Definition runHealthCheck (env : Env) (c : Clients) : M World HealthStatus :=
  console_log "Running health check..." ;;;
  timestamp <~ now ;;
  checks <~ promise_all4 (checkAsana c) (checkLinear c) (checkGitHub c) (checkNotion c) ;;
  let health := assembleHealth timestamp checks in
  logHealthStatus health ;;;
  (match overall health with
   | ohealthy => ret tt
   | _ => alertOnFailure health
   end) ;;;
  StateManager.saveHealth env health ;;;
  ret health.

(** The monitor object and the timers it registered.  [setInterval]
    returns a handle the class never keeps, so a registered timer stays
    registered; [intervals] counts them and [cycles] counts the calls of
    [runHealthCheck]. *)
Record Monitor : Type := mkMonitor {
  monitoringActive : bool;
  intervals : nat;
  cycles : nat;
  world : World
}.

(** [this.runHealthCheck()], not awaited: its outcome is dropped. *)
Definition fireHealthCheck (env : Env) (c : Clients) (m : Monitor) : Monitor :=
  let (_, w) := runHealthCheck env c (world m) in
  mkMonitor (monitoringActive m) (intervals m) (S (cycles m)) w.

Definition logged (line : string) (m : Monitor) : Monitor :=
  mkMonitor (monitoringActive m) (intervals m) (cycles m)
            (snd (console_log line (world m))).

Definition start (env : Env) (c : Clients) (m : Monitor) : Monitor :=
  if monitoringActive m then logged "Health monitoring already active" m
  else
    let m1 := logged "Starting health monitoring..." m in
    let m2 := mkMonitor true (intervals m1) (cycles m1) (world m1) in
    let m3 := fireHealthCheck env c m2 in
    mkMonitor (monitoringActive m3) (S (intervals m3)) (cycles m3) (world m3).

Definition stop (m : Monitor) : Monitor :=
  let m1 := logged "Stopping health monitoring..." m in
  mkMonitor false (intervals m1) (cycles m1) (world m1).

(** The callback handed to [setInterval]. *)
Definition intervalCallback (env : Env) (c : Clients) (m : Monitor) : Monitor :=
  if monitoringActive m then fireHealthCheck env c m else m.

(** [checkIntervalMs] go by: every registered timer fires once. *)
Definition elapse (env : Env) (c : Clients) (m : Monitor) : Monitor :=
  Nat.iter (intervals m) (intervalCallback env c) m.

Inductive Event : Type := Start | Stop | Elapse.

Definition step (env : Env) (c : Clients) (m : Monitor) (e : Event) : Monitor :=
  match e with
  | Start => start env c m
  | Stop => stop m
  | Elapse => elapse env c m
  end.

Definition run (env : Env) (c : Clients) (es : list Event) (m : Monitor) : Monitor :=
  fold_left (step env c) es m.

(** A new [HealthMonitor]. *)
Definition fresh_monitor (w : World) : Monitor := mkMonitor false 0 0 w.

End HealthMonitor.

(* ===================================================================== *)
(** * Vocabulary of the specification                                     *)
(* ===================================================================== *)

Import Enforcer.

(** The tool name contains one of the fragments. *)
Definition matches_fragment (fragments : list string) (t : string) : Prop :=
  exists p, In p fragments /\ includes t p = true.

(** Rule 1: which parameter each connector prefix fills, and the entries
    it leaves in [modifications]. *)
Definition identifierRules : list (string * string) :=
  [("asana", "workspace"); ("linear", "teamId");
   ("notion", "workspace_id"); ("github", "owner")].

Definition identifierKeys : list string := map snd identifierRules.

Definition injectionMessages : list string :=
  ["Injected Asana workspace ID"; "Injected Linear team ID";
   "Injected Notion workspace ID"; "Injected GitHub owner"].

(** The bag [l] has a property for every identifier rule 1 would look at
    for tool [t]. *)
Definition containsIdentifiers (h : heap) (l : loc) (t : string) : bool :=
  forallb (fun rule => implb (startsWith t (fst rule))
                             (bool_decide (is_Some (deref h l !! snd rule))))
          identifierRules.

(** The same with a value that counts as one for [!params.key]. *)
Definition suppliesIdentifiers (h : heap) (l : loc) (t : string) : bool :=
  forallb (fun rule => implb (startsWith t (fst rule))
                             (truthy (default VUndef (deref h l !! snd rule))))
          identifierRules.

(** [s'] differs from [s] at most in the bag [l], on the keys [ks], and
    in the trail of modifications, grown by entries from [ms]. *)
Definition touches_only (l : loc) (ks ms : list string) (s s' : EState) : Prop :=
  original (res s') = original (res s) /\
  enhanced (res s') = enhanced (res s) /\
  enforce_pagination (res s') = enforce_pagination (res s) /\
  chain_operations (res s') = chain_operations (res s) /\
  (exists extra, modifications (res s') = modifications (res s) ++ extra /\
                 Forall (fun m => In m ms) extra) /\
  (forall k, ~ In k ks -> deref (hp s') l !! k = deref (hp s) l !! k) /\
  (forall l', l' <> l -> hp s' !! l' = hp s !! l') /\
  (is_Some (hp s !! l) -> is_Some (hp s' !! l)).

(** The invariant of [ConnectorStatus]. *)
Definition has_identity (cs : ConnectorStatus) : Prop :=
  is_Some (user cs) \/ is_Some (workspace cs) \/ is_Some (team cs) \/
  is_Some (stats cs) \/ is_Some (bot cs).

(** A field holds something when its key is there with a value other
    than [undefined]: a key set to [undefined] reads like a missing one,
    and [JSON.stringify] leaves it out of the stored snapshot. *)
Definition present (field : option val) : Prop :=
  exists v, field = Some v /\ v <> VUndef.

Definition status_invariant (cs : ConnectorStatus) : Prop :=
  (status cs = authenticated -> ~ present (error cs)) /\
  (status cs = failed -> present (error cs) /\ ~ has_identity cs) /\
  ~ (has_identity cs /\ present (error cs)).

(** How a probe ends when it settles: signed in, with no error; or
    failed, with [m] as its error and no identity. *)
Definition probe_succeeded (cs : ConnectorStatus) : Prop :=
  status cs = authenticated /\ error cs = None.

Definition probe_failed (m : val) (cs : ConnectorStatus) : Prop :=
  status cs = failed /\ error cs = Some m /\
  user cs = None /\ workspace cs = None /\ team cs = None /\
  stats cs = None /\ bot cs = None.

(** What the seven client calls of one run settle to. *)
Definition client_calls (c : Clients) : list (outcome val) :=
  [asana_getCurrentUser c; asana_listWorkspaces c;
   linear_getCurrentUser c; linear_getTeams c;
   github_getAuthenticatedUser c; github_listRepositories c;
   notion_getBotUser c].

(** What the [try] block of a probe can throw: the [TypeError] of a
    property read on [null] or [undefined], the rejection of a client
    call, or whatever [+] throws. *)
Definition caught (env : Env) (c : Clients) (e : Error) : Prop :=
  (exists v k, nullish v = true /\ e = TypeError v k) \/
  In (Throw e) (client_calls c) \/
  (exists a b, js_plus env a b = Throw e).

(** The caught value has a [message]: the read does not throw, and gives
    something. *)
Definition has_message (e : Error) : Prop :=
  exists m, message e = Ok m /\ m <> VUndef.

(** Every rejection of a client call, and every failure of [+], is a
    value with a [message], as [Error] objects are. *)
Definition failures_have_messages (env : Env) (c : Clients) : Prop :=
  (forall e, In (Throw e) (client_calls c) -> has_message e) /\
  (forall a b e, js_plus env a b = Throw e -> has_message e).

(** The two ways a probe ends.  Either its [try] block ran through, and
    it is signed in; or the block threw [e], and the handler read
    [e.message]: with a message [m] the probe settles as failed with
    [m], and when that read throws in its turn the probe rejects. *)
Definition probe_ends (env : Env) (c : Clients)
    (probe : M World ConnectorStatus) (w : World) : Prop :=
  (exists cs w', probe w = (Ok cs, w') /\ probe_succeeded cs /\
                 last_verified cs = clock w /\
                 files w' = files w /\ clock w' = clock w) \/
  (exists e w', caught env c e /\ files w' = files w /\ clock w' = clock w /\
     probe w = match message e with
               | Ok m => (Ok (mkConnectorStatus failed None None None None None
                                                (Some m) (clock w)), w')
               | Throw e' => (Throw e', w')
               end).

(** The handler of [probe] ran on [e]: with a message [m] the probe
    settles as failed with [m], stamped with the clock; when reading the
    message throws, the probe rejects with what that read threw. *)
Definition handled (probe : M World ConnectorStatus) (w : World) (e : Error) : Prop :=
  match message e with
  | Ok m => exists cs w', probe w = (Ok cs, w') /\ probe_failed m cs /\
                          last_verified cs = clock w
  | Throw e' => exists w', probe w = (Throw e', w')
  end.

(** The items the loop takes from one page. *)
Definition page_items (response : val) : list val :=
  match response with
  | VArr items => items
  | _ =>
      if truthy (get response "nodes") then
        match spread (get response "nodes") with Ok items => items | Throw _ => [] end
      else if truthy (get response "data") then
        match spread (get response "data") with Ok items => items | Throw _ => [] end
      else []
  end.

Definition fetched_items (tr : Trace) : list val :=
  concat (map (fun entry => match snd entry with
                            | Ok v => page_items v
                            | Throw _ => []
                            end) tr).

(** What makes the primary write of [save] fail, if anything: creating
    the data directory, then writing the JSON file. *)
Definition primary_failure (env : Env) : option Error :=
  match mkdir_error env StateManager.dataDir with
  | Some e => Some e
  | None => writeFile_error env StateManager.calibrationPath
  end.

(** What makes the YAML export fail, if anything. *)
Definition export_failure (env : Env) (state : CalibrationState) : option Error :=
  match yaml_dump env state with
  | Throw e => Some e
  | Ok _ => writeFile_error env StateManager.yamlExportPath
  end.

(* ===================================================================== *)
(** * Sample inputs                                                       *)
(* ===================================================================== *)

Module Samples.

(** A store with one empty parameter bag, [{}]. *)
Definition empty_bag : heap := {[ 1%positive := ∅ ]}.

(** [{ labels: ['bug'] }] *)
Definition labels_bag : heap := {[ 1%positive := {[ "labels" := VArr [VStr "bug"] ]} ]}.

(** [{ teamId: 0 }] *)
Definition zero_team_bag : heap := {[ 1%positive := {[ "teamId" := VNum 0 ]} ]}.

(** [{ workspace: 'W0' }] *)
Definition workspace_bag : heap := {[ 1%positive := {[ "workspace" := VStr "W0" ]} ]}.

Definition create_issue : ToolCall := mkToolCall "create_issue" (PObj 1%positive).
Definition list_issues : ToolCall := mkToolCall "list_issues" (PObj 1%positive).
Definition get_issue : ToolCall := mkToolCall "get_issue" (PObj 1%positive).
Definition asana_list_tasks : ToolCall := mkToolCall "asana.list_tasks" (PObj 1%positive).
Definition linear_list_issues : ToolCall := mkToolCall "linear.list_issues" (PObj 1%positive).

(** A stored calibration: Asana workspace [W1], Linear team [T1]. *)
Definition snapshot : val :=
  VObj [("timestamp", VStr "2025-01-01T00:00:00.000Z");
        ("connectors",
         VObj [("asana", VObj [("status", VStr "authenticated");
                               ("workspace", VObj [("name", VStr "Main"); ("gid", VStr "W1")])]);
               ("linear", VObj [("status", VStr "authenticated");
                                ("team", VObj [("name", VStr "Core"); ("key", VStr "COR");
                                               ("id", VStr "T1")])])])].

End Samples.

(* ===================================================================== *)
(** * state-manager.ts: reading back                                      *)
(* ===================================================================== *)

Module StateLoader.

(** What [fs.readFile] and [JSON.parse] throw, with the [code] property
    the handler of [load] looks at ([SyntaxError] has none). *)
Record Thrown : Type := mkThrown {
  thrown_error : Error;
  thrown_code : option string
}.

(** What the surroundings decide about reading: which existing files
    cannot be read, and how [JSON.parse] reads a text. *)
Record Reader : Type := mkReader {
  readFile_error : string -> option Thrown;
  JSON_parse : string -> outcome val
}.

(** [fs.readFile(path, 'utf-8')]: a file that was never written is
    [ENOENT]. *)
Definition fs_readFile (rd : Reader) (path : string) (w : World) : string + Thrown :=
  match files w !! path with
  | None =>
      inr (mkThrown (mkError ("ENOENT: no such file or directory, open '" +:+ path +:+ "'"))
                    (Some "ENOENT"))
  | Some data =>
      match readFile_error rd path with
      | Some t => inr t
      | None => inl data
      end
  end.

(** The [try] block of [load] and [loadHealth]. *)
Definition read_json (rd : Reader) (path : string) (w : World) : val + Thrown :=
  match fs_readFile rd path w with
  | inr t => inr t
  | inl data =>
      match JSON_parse rd data with
      | Ok v => inl v
      | Throw e => inr (mkThrown e None)
      end
  end.

(** [error.code === 'ENOENT'] *)
Definition is_ENOENT (t : Thrown) : bool :=
  match thrown_code t with
  | Some c => String.eqb c "ENOENT"
  | None => false
  end.

Definition load (rd : Reader) : M World val :=
  fun w =>
    match read_json rd StateManager.calibrationPath w with
    | inl v => (Ok v, w)
    | inr t =>
        if is_ENOENT t then
          (console_log "No calibration state found" ;;; ret VNull) w
        else
          (console_error "Failed to load calibration state" ;;;
           throw (thrown_error t)) w
    end.

Definition loadHealth (rd : Reader) : M World val :=
  fun w =>
    match read_json rd StateManager.healthPath w with
    | inl v => (Ok v, w)
    | inr t =>
        if is_ENOENT t then ret VNull w
        else
          (console_error "Failed to load health status" ;;;
           throw (thrown_error t)) w
    end.

(** [HealthMonitor.getStatus()] *)
Definition getStatus (rd : Reader) : M World val := loadHealth rd.

Section Ageing.

(** Numbers of the engine, kept abstract: [hours_since ts t] is
    [(now.getTime() - new Date(ts).getTime()) / (1000 * 60 * 60)] at clock
    reading [t], and [exceeds a b] is [a > b]. *)
Variable number : Type.
Variable hours_since : val -> nat -> number.
Variable exceeds : number -> number -> bool.

(** [None] is the [null] of [if (!state) return null]. *)
Definition getCalibrationAge (rd : Reader) : M World (option number) :=
  state <~ load rd ;;
  if truthy state then
    t <~ now ;;
    ret (Some (hours_since (get state "timestamp") t))
  else ret None.

Definition needsRecalibration (rd : Reader) (maxAgeHours : number) : M World bool :=
  age <~ getCalibrationAge rd ;;
  match age with
  | None => ret true
  | Some a => ret (exceeds a maxAgeHours)
  end.

End Ageing.

End StateLoader.

(* ===================================================================== *)
(** * Further vocabulary                                                  *)
(* ===================================================================== *)

(** Rule 1 in full: tool prefix, parameter filled, connector and field of
    the snapshot it is taken from, key of the identifier in that field,
    and the entry left in [modifications]. *)
Definition injectionTable : list (string * string * string * string * string * string) :=
  [("asana", "workspace", "asana", "workspace", "gid", "Injected Asana workspace ID");
   ("linear", "teamId", "linear", "team", "id", "Injected Linear team ID");
   ("notion", "workspace_id", "notion", "workspace", "id", "Injected Notion workspace ID");
   ("github", "owner", "github", "user", "login", "Injected GitHub owner")].

(** [state?.connectors?.[conn]?.[field]] *)
Definition snapshot_entity (state : val) (conn field : string) : val :=
  opt_get (opt_get (opt_get state "connectors") conn) field.

(** The snapshot holds none of the four entities rule 1 looks for. *)
Definition holds_no_identity (state : val) : bool :=
  forallb (fun row => let '(_, _, conn, field, _, _) := row in
                      negb (truthy (snapshot_entity state conn field)))
          injectionTable.

(** A response in none of the three shapes the loop knows: not an array,
    not [null] or [undefined], and with neither [nodes] nor [data]. *)
Definition unrecognised (response : val) : bool :=
  match response with
  | VArr _ => false
  | _ => negb (nullish response) &&
         negb (truthy (get response "nodes")) &&
         negb (truthy (get response "data"))
  end.

(** The cursor the loop holds after a page, given the one it held
    before. *)
Definition next_cursor (response : val) (cursor : val) : val :=
  match consume response (mkPageLoop [] VUndef cursor 0) with
  | Ok (_, _, cur) => cur
  | Throw _ => cursor
  end.

(** The cursor left by the pages of a trace, starting from [cursor]. *)
Definition cursor_after (cursor : val) (tr : Trace) : val :=
  fold_left (fun c entry => match snd entry with
                            | Ok v => next_cursor v c
                            | Throw _ => c
                            end) tr cursor.

(** What makes [saveHealth] fail, if anything. *)
Definition health_write_failure (env : Env) : option Error :=
  match mkdir_error env StateManager.dataDir with
  | Some e => Some e
  | None => writeFile_error env StateManager.healthPath
  end.

(** The identity call of each connector, as [verify] and the health
    checks make it. *)
Definition identity_ok (o : outcome val) : bool :=
  match o with Ok _ => true | Throw _ => false end.

Definition all_identities_ok (c : Clients) : bool :=
  identity_ok (asana_getCurrentUser c) && identity_ok (linear_getCurrentUser c) &&
  identity_ok (github_getAuthenticatedUser c) && identity_ok (notion_getBotUser c).

(** [n] rounds of [start(); stop()]. *)
Fixpoint restarts (n : nat) : list HealthMonitor.Event :=
  match n with
  | 0 => []
  | S n' => HealthMonitor.Start :: HealthMonitor.Stop :: restarts n'
  end.

(* ===================================================================== *)
(** * Scenarios                                                           *)
(* ===================================================================== *)

Module Scenarios.

(** Nothing fails; the serialisers print a fixed text per kind; [+]
    returns its left operand. *)
Definition quiet_env : Env :=
  mkEnv (fun _ => None) (fun _ => None)
        (fun _ => "{calibration}") (fun _ => "{health}")
        (fun _ => Ok "calibration: {}") (fun a _ => Ok a).

(** The YAML printer throws. *)
Definition yaml_broken_env : Env :=
  mkEnv (fun _ => None) (fun _ => None)
        (fun _ => "{calibration}") (fun _ => "{health}")
        (fun _ => Throw (mkError "YAMLException")) (fun a _ => Ok a).

(** Every file can be read; the fixed texts parse to a small object. *)
Definition quiet_reader : StateLoader.Reader :=
  StateLoader.mkReader (fun _ => None)
    (fun text => if String.eqb text "{calibration}"
                 then Ok (VObj [("timestamp", VStr "t0")])
                 else if String.eqb text "{health}"
                      then Ok (VObj [("overall", VStr "healthy")])
                      else Throw (mkError "Unexpected token")).

Definition blank_world : World := mkWorld ∅ [] 0.

(** A world with a YAML export from an earlier run. *)
Definition exported_world : World :=
  mkWorld {[ StateManager.yamlExportPath := "calibration: old" ]} [] 7.

Definition blank_state : CalibrationState :=
  mkCalibrationState 0 (mkConnectors None None None None).

Definition other_state : CalibrationState :=
  mkCalibrationState 1 (mkConnectors None None None None).

(** Every client call succeeds. *)
Definition clients_up : Clients :=
  mkClients (Ok (VObj [("name", VStr "Ada"); ("gid", VStr "U1")]))
            (Ok (VArr [VObj [("name", VStr "Main"); ("gid", VStr "W1")];
                       VObj [("name", VStr "Side"); ("gid", VStr "W2")]]))
            (Ok (VObj [("name", VStr "Ada"); ("id", VStr "L1")]))
            (Ok (VArr []))
            (Ok (VObj [("login", VStr "ada"); ("public_repos", VNum 2);
                       ("total_private_repos", VNum 3)]))
            (Ok (VArr []))
            (Ok (VObj [("id", VStr "B1");
                       ("bot", VObj [("workspace_name", VStr "Notes");
                                     ("owner", VObj [("user",
                                        VObj [("person",
                                           VObj [("email", VStr "ada@example.org")])])])])])).

(** GitHub signs in but cannot list repositories; Linear is down. *)
Definition clients_partial : Clients :=
  mkClients (Ok (VObj [("name", VStr "Ada"); ("gid", VStr "U1")]))
            (Ok (VArr []))
            (Throw (mkError "503"))
            (Throw (mkError "503"))
            (Ok (VObj [("login", VStr "ada")]))
            (Throw (mkError "rate limited"))
            (Ok (VObj [("id", VStr "B1")])).

(** Asana rejects without a reason ([reject()], as a bare timeout does):
    the caught value is [undefined].  The other clients answer. *)
Definition clients_bare_rejection : Clients :=
  mkClients (Throw (Rejection VUndef))
            (Ok (VArr []))
            (Ok (VObj [("name", VStr "Ada"); ("id", VStr "L1")]))
            (Ok (VArr []))
            (Ok (VObj [("login", VStr "ada"); ("public_repos", VNum 2);
                       ("total_private_repos", VNum 3)]))
            (Ok (VArr []))
            (Ok (VObj [("id", VStr "B1");
                       ("bot", VObj [("workspace_name", VStr "Notes");
                                     ("owner", VObj [("user",
                                        VObj [("person",
                                           VObj [("email", VStr "ada@example.org")])])])])])).

(** Asana rejects with [{ code: 'ETIMEDOUT' }], an error value that has a
    code and no [message].  The other clients answer. *)
Definition clients_coded_rejection : Clients :=
  mkClients (Throw (Rejection (VObj [("code", VStr "ETIMEDOUT")])))
            (Ok (VArr []))
            (Ok (VObj [("name", VStr "Ada"); ("id", VStr "L1")]))
            (Ok (VArr []))
            (Ok (VObj [("login", VStr "ada"); ("public_repos", VNum 2);
                       ("total_private_repos", VNum 3)]))
            (Ok (VArr []))
            (Ok (VObj [("id", VStr "B1");
                       ("bot", VObj [("workspace_name", VStr "Notes");
                                     ("owner", VObj [("user",
                                        VObj [("person",
                                           VObj [("email", VStr "ada@example.org")])])])])])).

(** A runtime with two pages, and one that fails on the second fetch. *)
Definition two_pages (n : nat) (_ : PageRequest) : outcome val :=
  match n with
  | 0 => Ok (VObj [("data", VArr [VNum 1]); ("next_page", VStr "p2")])
  | _ => Ok (VArr [VNum 2])
  end.

Definition second_fetch_fails (n : nat) (_ : PageRequest) : outcome val :=
  match n with
  | 0 => Ok (VObj [("data", VArr [VNum 1]); ("next_page", VStr "p2")])
  | _ => Throw (mkError "429")
  end.

Definition unknown_shape (_ : nat) (_ : PageRequest) : outcome val :=
  Ok (VObj [("items", VArr [VNum 1])]).

(** The second request of [list_issues] on an empty bag after the page
    [p2] was announced. *)
Definition second_request : PageRequest :=
  mkPageRequest "list_issues"
    (<["offset" := VStr "p2"]> (<["after" := VStr "p2"]> (<["cursor" := VStr "p2"]> ∅))).


End Scenarios.

(* ===================================================================== *)
(** * Stepping through the effect monad                                   *)
(* ===================================================================== *)

Lemma bind_Ok {S A B} (m : M S A) (k : A -> M S B) s a s' :
  m s = (Ok a, s') -> bind m k s = k a s'.
Proof. intros H. unfold bind. by rewrite H. Qed.

Lemma bind_Throw {S A B} (m : M S A) (k : A -> M S B) s e s' :
  m s = (Throw e, s') -> bind m k s = (Throw e, s').
Proof. intros H. unfold bind. by rewrite H. Qed.

Lemma try_catch_Ok {S A} (body : M S A) (handler : Error -> M S A) s a s' :
  body s = (Ok a, s') -> try_catch body handler s = (Ok a, s').
Proof. intros H. unfold try_catch. by rewrite H. Qed.

Lemma try_catch_Throw {S A} (body : M S A) (handler : Error -> M S A) s e s' :
  body s = (Throw e, s') -> try_catch body handler s = handler e s'.
Proof. intros H. unfold try_catch. by rewrite H. Qed.

Lemma settle_Ok {S A} (m : M S A) s o s' :
  m s = (o, s') -> settle m s = (Ok o, s').
Proof. intros H. unfold settle. by rewrite H. Qed.

(* ===================================================================== *)
(** * Facts about the enforcement pipeline                                *)
(* ===================================================================== *)

Section EnforcerFacts.

Lemma touches_only_refl l ks ms s : touches_only l ks ms s s.
Proof.
  unfold touches_only. repeat split; try done.
  exists []. by rewrite app_nil_r.
Qed.

Lemma touches_only_trans l ks ms s1 s2 s3 :
  touches_only l ks ms s1 s2 -> touches_only l ks ms s2 s3 ->
  touches_only l ks ms s1 s3.
Proof.
  intros (A1 & A2 & A3 & A4 & (e1 & A5 & A5') & A6 & A7 & A8)
         (B1 & B2 & B3 & B4 & (e2 & B5 & B5') & B6 & B7 & B8).
  unfold touches_only. repeat split; try congruence.
  - exists (e1 ++ e2). split; [by rewrite B5, A5, app_assoc | by apply Forall_app].
  - intros k Hk. by rewrite B6, A6.
  - intros l' Hl. by rewrite B7, A7.
  - auto.
Qed.

Lemma touches_only_mono l ks ks' ms ms' s s' :
  incl ks ks' -> incl ms ms' ->
  touches_only l ks ms s s' -> touches_only l ks' ms' s s'.
Proof.
  intros Hk Hm (A1 & A2 & A3 & A4 & (e1 & A5 & A5') & A6 & A7 & A8).
  unfold touches_only. repeat split; try done.
  - exists e1. split; [done |]. eapply Forall_impl; [exact A5' |]. intros m ?. by apply Hm.
  - intros k Hk'. apply A6. intros ?. apply Hk'. by apply Hk.
Qed.

Lemma touches_only_enhanced l ks ms s s' c :
  touches_only l ks ms s s' -> enhanced (res s) = c -> enhanced (res s') = c.
Proof. intros (_ & A2 & _) <-. done. Qed.

Lemma deref_insert (h : heap) l o : deref (<[l := o]> h) l = o.
Proof. unfold deref. by rewrite lookup_insert_eq. Qed.

Lemma deref_insert_ne (h : heap) l l' o : l <> l' -> deref (<[l := o]> h) l' = deref h l'.
Proof. intros Hne. unfold deref. by rewrite lookup_insert_ne. Qed.

(** One block of rule 1 on an object bag: it returns, and touches only
    its key and its message. *)
Lemma inject_block_obj state prefix key conn field idkey msg s t l :
  enhanced (res s) = mkToolCall t (PObj l) ->
  exists s', inject_block state prefix key conn field idkey msg s = (Ok tt, s') /\
             touches_only l [key] [msg] s s'.
Proof.
  intros He. unfold inject_block, bind, gets, read_param, ret. rewrite He. simpl.
  destruct (startsWith t prefix); [| eexists; split; [done | apply touches_only_refl]].
  destruct (truthy (default VUndef (deref (hp s) l !! key)));
    [eexists; split; [done | apply touches_only_refl] |].
  destruct (truthy _); [| eexists; split; [done | apply touches_only_refl]].
  simpl. rewrite He. simpl. eexists; split; [done |].
  unfold touches_only; simpl. repeat split; try done.
  - exists [msg]. split; [done |]. constructor; [by left | constructor].
  - intros k Hk. rewrite deref_insert. rewrite lookup_insert_ne; [done |].
    intros ->. apply Hk. by left.
  - intros l' Hl. by rewrite lookup_insert_ne.
  - intros _. rewrite lookup_insert_eq. eauto.
Qed.

(** One block of rule 1 when its identifier is supplied: nothing happens. *)
Lemma inject_block_supplied state prefix key conn field idkey msg s t l :
  enhanced (res s) = mkToolCall t (PObj l) ->
  implb (startsWith t prefix) (truthy (default VUndef (deref (hp s) l !! key))) = true ->
  inject_block state prefix key conn field idkey msg s = (Ok tt, s).
Proof.
  intros He Hs. unfold inject_block, bind, gets, read_param, ret. rewrite He. simpl.
  destruct (startsWith t prefix); [| done]. simpl in Hs. by rewrite Hs.
Qed.

Ltac incl_solve := intros ? ?; simpl in *; tauto.

Lemma injectIdentifiers_obj state s t l :
  enhanced (res s) = mkToolCall t (PObj l) ->
  exists s', injectIdentifiers state s = (Ok tt, s') /\
             touches_only l identifierKeys injectionMessages s s'.
Proof.
  intros He. unfold injectIdentifiers.
  destruct (inject_block_obj state "asana" "workspace" "asana" "workspace" "gid"
              "Injected Asana workspace ID" s t l He) as (s1 & E1 & T1).
  pose proof (touches_only_enhanced _ _ _ _ _ _ T1 He) as He1.
  destruct (inject_block_obj state "linear" "teamId" "linear" "team" "id"
              "Injected Linear team ID" s1 t l He1) as (s2 & E2 & T2).
  pose proof (touches_only_enhanced _ _ _ _ _ _ T2 He1) as He2.
  destruct (inject_block_obj state "notion" "workspace_id" "notion" "workspace" "id"
              "Injected Notion workspace ID" s2 t l He2) as (s3 & E3 & T3).
  pose proof (touches_only_enhanced _ _ _ _ _ _ T3 He2) as He3.
  destruct (inject_block_obj state "github" "owner" "github" "user" "login"
              "Injected GitHub owner" s3 t l He3) as (s4 & E4 & T4).
  exists s4. split.
  - unfold bind at 1. rewrite E1. unfold bind at 1. rewrite E2.
    unfold bind at 1. rewrite E3. exact E4.
  - apply (touches_only_mono l _ identifierKeys _ injectionMessages) in T1; [| incl_solve ..].
    apply (touches_only_mono l _ identifierKeys _ injectionMessages) in T2; [| incl_solve ..].
    apply (touches_only_mono l _ identifierKeys _ injectionMessages) in T3; [| incl_solve ..].
    apply (touches_only_mono l _ identifierKeys _ injectionMessages) in T4; [| incl_solve ..].
    eauto using touches_only_trans.
Qed.

Lemma injectIdentifiers_supplied state s t l :
  enhanced (res s) = mkToolCall t (PObj l) ->
  suppliesIdentifiers (hp s) l t = true ->
  injectIdentifiers state s = (Ok tt, s).
Proof.
  intros He Hs. unfold suppliesIdentifiers, identifierRules in Hs. simpl in Hs.
  repeat (apply andb_prop in Hs as [? Hs]).
  unfold injectIdentifiers, bind.
  repeat (rewrite (inject_block_supplied _ _ _ _ _ _ _ s t l); [| done ..]).
  done.
Qed.

(** Rule 2 on an object bag: [searchForId] finds nothing, so nothing is
    merged. *)
Lemma resolveIdentifiers_obj s t l :
  enhanced (res s) = mkToolCall t (PObj l) ->
  resolveIdentifiers s = (Ok tt, s).
Proof.
  intros He.
  unfold resolveIdentifiers, bind, gets, hasNameInsteadOfId, bind, read_param, ret.
  rewrite He. simpl. by destruct (truthy _).
Qed.

(** Rule 3. *)
Lemma paginationRule_spec call s :
  exists s', paginationRule call s = (Ok tt, s') /\ hp s' = hp s /\
    original (res s') = original (res s) /\
    enhanced (res s') = enhanced (res s) /\
    chain_operations (res s') = chain_operations (res s) /\
    enforce_pagination (res s') =
      (if requiresPagination call then Some true else enforce_pagination (res s)) /\
    modifications (res s') = modifications (res s) ++
      (if requiresPagination call then ["Pagination enforcement enabled"] else []).
Proof.
  unfold paginationRule. destruct (requiresPagination call).
  - eexists. split; [reflexivity |]. simpl. repeat split; done.
  - eexists. split; [reflexivity |]. rewrite app_nil_r. repeat split; done.
Qed.

(** Rule 4 on an object bag. *)
Lemma chainingRule_obj call l s :
  params call = PObj l ->
  let labels := default VUndef (deref (hp s) l !! "labels") in
  let follow := includes (tool call) "create_issue" && truthy labels in
  let l2 := fresh (dom (hp s)) in
  exists s', chainingRule call s = (Ok tt, s') /\
    original (res s') = original (res s) /\
    enhanced (res s') = enhanced (res s) /\
    enforce_pagination (res s') = enforce_pagination (res s) /\
    modifications (res s') = modifications (res s) ++
      (if requiresChaining call then ["Operation chaining configured"] else []) /\
    chain_operations (res s') =
      (if requiresChaining call then
         Some (call :: if follow then [mkToolCall "add_labels" (PObj l2)] else [])
       else chain_operations (res s)) /\
    hp s' = (if requiresChaining call && follow
             then <[l2 := {[ "labels" := labels ]}]> (hp s) else hp s).
Proof.
  intros Hp labels follow l2. subst labels follow l2.
  unfold chainingRule, buildOperationChain. destruct (requiresChaining call); simpl.
  - destruct (includes (tool call) "create_issue"); simpl.
    + unfold bind, read_param. rewrite Hp.
      destruct (truthy (default VUndef (deref (hp s) l !! "labels"))) eqn:Ht; simpl.
      * eexists. split; [reflexivity |]. simpl. repeat split; done.
      * eexists. split; [reflexivity |]. simpl. repeat split; done.
    + eexists. split; [reflexivity |]. simpl. repeat split; done.
  - eexists. split; [reflexivity |]. rewrite app_nil_r. repeat split; done.
Qed.

(** Rules 1 and 2 on an object bag, then rules 3 and 4 from where they
    left the state. *)
Lemma enforce_rules_obj state call l h :
  params call = PObj l ->
  let s0 := mkEState h (mkResult call (mkToolCall (tool call) (params call)) [] None None) in
  exists s1, touches_only l identifierKeys injectionMessages s0 s1 /\
    enforce_rules state call s0 =
    (paginationRule call ;;; chainingRule call)%js s1.
Proof.
  intros Hp s0.
  assert (He : enhanced (res s0) = mkToolCall (tool call) (PObj l)) by (simpl; by rewrite Hp).
  destruct (injectIdentifiers_obj state s0 _ _ He) as (s1 & E1 & T1).
  exists s1. split; [done |].
  unfold enforce_rules. unfold bind at 1. rewrite E1.
  unfold bind at 1.
  by rewrite (resolveIdentifiers_obj s1 _ _ (touches_only_enhanced _ _ _ _ _ _ T1 He)).
Qed.

Lemma enforce_rules_supplied state call l h :
  params call = PObj l ->
  suppliesIdentifiers h l (tool call) = true ->
  let s0 := mkEState h (mkResult call (mkToolCall (tool call) (params call)) [] None None) in
  enforce_rules state call s0 = (paginationRule call ;;; chainingRule call)%js s0.
Proof.
  intros Hp Hs s0.
  assert (He : enhanced (res s0) = mkToolCall (tool call) (PObj l)) by (simpl; by rewrite Hp).
  unfold enforce_rules. unfold bind at 1.
  rewrite (injectIdentifiers_supplied state s0 _ _ He Hs).
  unfold bind at 1. by rewrite (resolveIdentifiers_obj s0 _ _ He).
Qed.

(** The record the result calls [enhanced] has the fields of the call. *)
Lemma spread_toolCall call : mkToolCall (tool call) (params call) = call.
Proof. by destruct call. Qed.

End EnforcerFacts.

(* ===================================================================== *)
(** * The enforcement pipeline: results                                   *)
(* ===================================================================== *)

(** A call whose [params] is [null] or [undefined] makes [enforce] reject:
    rule 2 reads [params.name]. *)
Lemma enforce_nullish_throws (state : val) (call : ToolCall) (h : heap) :
  (forall l, params call <> PObj l) ->
  exists e h', enforce (Ok state) call h = (Throw e, h').
Proof.
  intros Hp. unfold enforce, enforce_rules, injectIdentifiers, inject_block,
    resolveIdentifiers, hasNameInsteadOfId, bind, gets, read_param, ret.
  simpl. destruct (params call) as [l | |]; [by destruct (Hp l) | |];
    (repeat (destruct (startsWith (tool call) _); simpl; [by eauto |]));
    by eauto.
Qed.

(** The [original] field is the record that was passed in. *)
Lemma enforce_original_record (state : val) (call : ToolCall) (l : loc) (h : heap) :
  params call = PObj l ->
  exists r h', enforce (Ok state) call h = (Ok r, h') /\
               original r = call /\ enhanced r = call.
Proof.
  intros Hp. unfold enforce.
  destruct (enforce_rules_obj state call l h Hp) as (s1 & T1 & ->).
  destruct T1 as (T1 & T2 & _). simpl in T1, T2.
  unfold bind at 1.
  destruct (paginationRule_spec call s1) as (s2 & -> & _ & P1 & P2 & _).
  destruct (chainingRule_obj call l s2 Hp) as (s3 & -> & C1 & C2 & _).
  eexists _, _. split; [reflexivity |].
  rewrite C1, C2, P1, P2, T1, T2. split; [done | apply spread_toolCall].
Qed.

(** On an object bag [enforce] returns, and the flag follows the tool
    name. *)
Lemma enforce_pagination_obj (state : val) (call : ToolCall) (l : loc) (h : heap) :
  params call = PObj l ->
  exists r h', enforce (Ok state) call h = (Ok r, h') /\
    (enforce_pagination r = Some true <-> matches_fragment paginationTools (tool call)) /\
    (~ matches_fragment paginationTools (tool call) -> enforce_pagination r = None).
Proof.
  intros Hp. unfold enforce.
  destruct (enforce_rules_obj state call l h Hp) as (s1 & T1 & ->).
  destruct T1 as (_ & _ & T3 & _). simpl in T3.
  unfold bind at 1.
  destruct (paginationRule_spec call s1) as (s2 & -> & _ & _ & _ & _ & P & _).
  destruct (chainingRule_obj call l s2 Hp) as (s3 & -> & _ & _ & C & _).
  eexists _, _. split; [reflexivity |].
  rewrite C, P, T3.
  assert (Hm : requiresPagination call = true <-> matches_fragment paginationTools (tool call)).
  { unfold requiresPagination, matches_fragment. apply existsb_exists. }
  destruct (requiresPagination call).
  - split; [split; [intros _; by apply Hm | done] |].
    intros Hn. exfalso. apply Hn. by apply Hm.
  - split; [| done]. split; [done |].
    intros Hf. apply Hm in Hf. discriminate.
Qed.

(** C7.  Whenever [enforce] returns a result, its [enforce_pagination] is
    [true] exactly when the tool name contains one of the nine fragments
    [list_tasks], [list_projects], [list_issues], [get_issues],
    [list_pull_requests], [list_commits], [search_], [get_comments],
    [list_cycles], and is absent otherwise; in particular it is [true] for
    the tool [list_issues] and absent for the tool [get_issue]; and
    [enforce] does return a result for every call whose parameter bag is
    an object, once the calibration state is loaded. *)
Theorem enforce_pagination_flag (loaded : outcome val) (call : ToolCall) (h : heap) :
  (forall state l, loaded = Ok state -> params call = PObj l ->
     exists r h', enforce loaded call h = (Ok r, h')) /\
  (forall r h', enforce loaded call h = (Ok r, h') ->
     (enforce_pagination r = Some true <->
      matches_fragment
        ["list_tasks"; "list_projects"; "list_issues"; "get_issues";
         "list_pull_requests"; "list_commits"; "search_"; "get_comments";
         "list_cycles"] (tool call)) /\
     (~ matches_fragment
          ["list_tasks"; "list_projects"; "list_issues"; "get_issues";
           "list_pull_requests"; "list_commits"; "search_"; "get_comments";
           "list_cycles"] (tool call) ->
      enforce_pagination r = None) /\
     (tool call = "list_issues" -> enforce_pagination r = Some true) /\
     (tool call = "get_issue" -> enforce_pagination r = None)).
Proof.
  split.
  - intros state l -> Hp.
    destruct (enforce_pagination_obj state call l h Hp) as (r & h' & Hr & _). eauto.
  - intros r h' Hr. destruct loaded as [state | e]; [| discriminate].
    destruct (params call) as [l | |] eqn:Hp.
    + destruct (enforce_pagination_obj state call l h Hp) as (r0 & h0 & Hr0 & Hiff & Hnone).
      rewrite Hr0 in Hr. injection Hr as -> ->.
      change paginationTools
        with ["list_tasks"; "list_projects"; "list_issues"; "get_issues";
              "list_pull_requests"; "list_commits"; "search_"; "get_comments";
              "list_cycles"] in Hiff, Hnone.
      split; [exact Hiff |]. split; [exact Hnone |]. split.
      * intros Ht. apply Hiff. exists "list_issues". rewrite Ht.
        split; [simpl; tauto | by vm_compute].
      * intros Ht. apply Hnone. rewrite Ht. intros (p & Hin & Hinc).
        simpl in Hin.
        repeat (destruct Hin as [<- | Hin]; [vm_compute in Hinc; discriminate |]).
        destruct Hin.
    + destruct (enforce_nullish_throws state call h) as (e & h0 & He); [| congruence].
      intros l. by rewrite Hp.
    + destruct (enforce_nullish_throws state call h) as (e & h0 & He); [| congruence].
      intros l. by rewrite Hp.
Qed.

Lemma enforce_pagination_flag_witness :
  (exists r h',
     enforce (Ok VNull) Samples.list_issues Samples.empty_bag = (Ok r, h') /\
     enforce_pagination r = Some true) /\
  (exists r h',
     enforce (Ok VNull) Samples.get_issue Samples.empty_bag = (Ok r, h') /\
     enforce_pagination r = None).
Proof.
  split.
  - destruct (enforce_pagination_flag (Ok VNull) Samples.list_issues Samples.empty_bag)
      as [Hreturns Hflag].
    destruct (Hreturns VNull 1%positive eq_refl eq_refl) as (r & h' & Hr).
    exists r, h'. split; [exact Hr |].
    exact (proj1 (proj2 (proj2 (Hflag r h' Hr))) eq_refl).
  - destruct (enforce_pagination_flag (Ok VNull) Samples.get_issue Samples.empty_bag)
      as [Hreturns Hflag].
    destruct (Hreturns VNull 1%positive eq_refl eq_refl) as (r & h' & Hr).
    exists r, h'. split; [exact Hr |].
    exact (proj2 (proj2 (proj2 (Hflag r h' Hr))) eq_refl).
Defined.

(** The two calls the specification names. *)
Example enforce_list_issues :
  fst (enforce (Ok VNull) Samples.list_issues Samples.empty_bag)
  = Ok (mkResult Samples.list_issues Samples.list_issues
                 ["Pagination enforcement enabled"] (Some true) None).
Proof. vm_compute. reflexivity. Qed.

Example enforce_get_issue :
  fst (enforce (Ok VNull) Samples.get_issue Samples.empty_bag)
  = Ok (mkResult Samples.get_issue Samples.get_issue [] None None).
Proof. vm_compute. reflexivity. Qed.

(** C1, as the code has it.  For a call whose tool name contains
    [create_issue] and whose parameter bag is an object of the store,
    [chain_operations] is always present and starts with the enhanced
    call (the chain is built from the call that was passed in, whose tool
    and bag are those of [enhanced]); it goes on with one [add_labels]
    call, on a new bag that holds the labels, exactly when
    [params.labels] is truthy. *)
Theorem chain_operations_create_issue
    (state : val) (call : ToolCall) (l : loc) (h : heap) :
  params call = PObj l ->
  is_Some (h !! l) ->
  includes (tool call) "create_issue" = true ->
  exists r h', enforce (Ok state) call h = (Ok r, h') /\
    enhanced r = call /\
    let labels := default VUndef (deref h l !! "labels") in
    if truthy labels then
      exists l2, h !! l2 = None /\ h' !! l2 = Some {[ "labels" := labels ]} /\
                 chain_operations r = Some [enhanced r; mkToolCall "add_labels" (PObj l2)]
    else chain_operations r = Some [enhanced r].
Proof.
  intros Hp Hl Hinc. unfold enforce.
  destruct (enforce_rules_obj state call l h Hp) as (s1 & T1 & ->).
  destruct T1 as (_ & T2 & _ & T4 & _ & T6 & T7 & T8). simpl in *.
  unfold bind at 1.
  destruct (paginationRule_spec call s1) as (s2 & -> & P0 & _ & P2 & P3 & _).
  destruct (chainingRule_obj call l s2 Hp) as (s3 & -> & _ & C2 & _ & _ & C5 & C6).
  eexists _, _. split; [reflexivity |].
  rewrite C2, P2, T2, spread_toolCall. split; [done |].
  assert (Hrc : requiresChaining call = true).
  { unfold requiresChaining, chainingPatterns. simpl. by rewrite Hinc. }
  rewrite Hrc, Hinc, P0 in C5, C6. simpl in C5, C6.
  rewrite T6 in C5, C6 by (simpl; intuition discriminate).
  destruct (truthy (default VUndef (deref h l !! "labels"))).
  - exists (fresh (dom (hp s1))).
    assert (Hfresh : hp s1 !! fresh (dom (hp s1)) = None).
    { apply not_elem_of_dom. apply is_fresh. }
    assert (Hne : fresh (dom (hp s1)) <> l).
    { intros Heq. rewrite Heq in Hfresh. destruct (T8 Hl) as [? Hs]. congruence. }
    split; [by rewrite <- (T7 _ Hne) |].
    split; [by rewrite C6, lookup_insert_eq | done].
  - done.
Qed.

Lemma chain_operations_create_issue_witness :
  exists r h',
    enforce (Ok VNull) Samples.create_issue Samples.labels_bag = (Ok r, h') /\
    enhanced r = Samples.create_issue /\
    let labels := default VUndef (deref Samples.labels_bag 1%positive !! "labels") in
    if truthy labels then
      exists l2, Samples.labels_bag !! l2 = None /\
                 h' !! l2 = Some {[ "labels" := labels ]} /\
                 chain_operations r = Some [enhanced r; mkToolCall "add_labels" (PObj l2)]
    else chain_operations r = Some [enhanced r].
Proof.
  apply (chain_operations_create_issue VNull Samples.create_issue 1%positive
           Samples.labels_bag).
  - reflexivity.
  - unfold Samples.labels_bag. rewrite lookup_singleton_eq. eauto.
  - reflexivity.
Defined.

(** The call of the specification's example: the chain is the enhanced
    call, then [add_labels] on a new bag with the same labels. *)
Example enforce_create_issue_labels :
  exists r h',
    enforce (Ok VNull) Samples.create_issue Samples.labels_bag = (Ok r, h') /\
    chain_operations r = Some [enhanced r; mkToolCall "add_labels" (PObj 2%positive)] /\
    h' !! 2%positive = Some {[ "labels" := VArr [VStr "bug"] ]}.
Proof.
  eexists _, _. split; [vm_compute; reflexivity |]. split; reflexivity.
Qed.

(** C1, refuted as stated: with an empty parameter bag the chain is
    present, and holds the call alone. *)
Lemma chain_operations_present_on_empty_params :
  exists r h',
    enforce (Ok VNull) Samples.create_issue Samples.empty_bag = (Ok r, h') /\
    deref Samples.empty_bag 1%positive = ∅ /\
    chain_operations r = Some [Samples.create_issue] /\
    chain_operations r <> None.
Proof.
  eexists _, _. split; [vm_compute; reflexivity |]. simpl.
  split; [reflexivity |]. split; [reflexivity | discriminate].
Qed.

(** C4, as the code has it.  When the parameter bag holds a truthy value
    for every identifier rule 1 looks at for this tool, [enforce] records
    no injection and returns the bag as it was. *)
Theorem enforce_supplied_identifiers
    (state : val) (call : ToolCall) (l : loc) (h : heap) :
  params call = PObj l ->
  suppliesIdentifiers h l (tool call) = true ->
  exists r h', enforce (Ok state) call h = (Ok r, h') /\
    (forall m, In m injectionMessages -> ~ In m (modifications r)) /\
    enhanced r = call /\
    deref h' l = deref h l.
Proof.
  intros Hp Hs. unfold enforce.
  rewrite (enforce_rules_supplied state call l h Hp Hs).
  unfold bind at 1.
  destruct (paginationRule_spec call
              (mkEState h (mkResult call (mkToolCall (tool call) (params call)) [] None None)))
    as (s2 & -> & P0 & _ & P2 & _ & _ & P5).
  destruct (chainingRule_obj call l s2 Hp) as (s3 & -> & _ & C2 & _ & C4 & _ & C6).
  eexists _, _. split; [reflexivity |]. simpl in *.
  split; [| split].
  - intros m Hm Hin. rewrite C4, P5 in Hin. simpl in Hin.
    unfold injectionMessages in Hm. simpl in Hm.
    destruct (requiresPagination call), (requiresChaining call); simpl in Hin;
      intuition (subst; discriminate).
  - rewrite C2, P2. apply spread_toolCall.
  - rewrite C6, P0.
    destruct (requiresChaining call &&
              (includes (tool call) "create_issue" &&
               truthy (default VUndef (deref h l !! "labels")))) eqn:Hc; [| done].
    apply deref_insert_ne. intros Heq.
    apply andb_prop in Hc as [_ Hc]. apply andb_prop in Hc as [_ Hc].
    assert (Hin : is_Some (h !! l)).
    { unfold deref in Hc. destruct (h !! l); [eauto |]. simpl in Hc.
      rewrite lookup_empty in Hc. discriminate. }
    apply elem_of_dom in Hin. rewrite <- Heq in Hin. by apply is_fresh in Hin.
Qed.

Lemma enforce_supplied_identifiers_witness :
  exists r h',
    enforce (Ok Samples.snapshot) Samples.asana_list_tasks Samples.workspace_bag
      = (Ok r, h') /\
    (forall m, In m injectionMessages -> ~ In m (modifications r)) /\
    enhanced r = Samples.asana_list_tasks /\
    deref h' 1%positive = deref Samples.workspace_bag 1%positive.
Proof.
  apply (enforce_supplied_identifiers Samples.snapshot Samples.asana_list_tasks
           1%positive Samples.workspace_bag); reflexivity.
Defined.

(** C4, refuted as stated: the bag contains [teamId], with the value [0];
    rule 1 injects the stored team over it all the same. *)
Lemma enforce_overwrites_falsy_identifier :
  containsIdentifiers Samples.zero_team_bag 1%positive
                      (tool Samples.linear_list_issues) = true /\
  exists r h',
    enforce (Ok Samples.snapshot) Samples.linear_list_issues Samples.zero_team_bag
      = (Ok r, h') /\
    In "Injected Linear team ID" injectionMessages /\
    In "Injected Linear team ID" (modifications r) /\
    deref Samples.zero_team_bag 1%positive !! "teamId" = Some (VNum 0) /\
    deref h' 1%positive !! "teamId" = Some (VStr "T1").
Proof.
  split; [vm_compute; reflexivity |].
  eexists _, _. split; [vm_compute; reflexivity |].
  repeat split; try (vm_compute; reflexivity); simpl; tauto.
Qed.

(** C2, at the failing input.  [enhanced] is a shallow copy, so it shares
    the parameter bag with the call that was passed in: after rule 1
    injects the workspace, the caller's own bag, empty before the pass,
    holds it, and [original] points to that very bag. *)
Theorem enforce_mutates_original_params :
  exists r h',
    enforce (Ok Samples.snapshot) Samples.asana_list_tasks Samples.empty_bag
      = (Ok r, h') /\
    original r = Samples.asana_list_tasks /\
    params (original r) = params (enhanced r) /\
    deref Samples.empty_bag 1%positive = ∅ /\
    deref h' 1%positive = {[ "workspace" := VStr "W1" ]}.
Proof.
  eexists _, _. split; [vm_compute; reflexivity |].
  repeat split; vm_compute; reflexivity.
Qed.

(* ===================================================================== *)
(** * Pagination                                                          *)
(* ===================================================================== *)

Lemma consume_items response st rs more cur :
  consume response st = Ok (rs, more, cur) -> rs = results st ++ page_items response.
Proof.
  unfold consume, page_items, read.
  destruct response; simpl; try discriminate;
    try (intros [= <- _ _]; by rewrite ?app_nil_r).
  destruct (truthy (default VUndef (assoc "nodes" fields))).
  - destruct (spread _); [| discriminate]. by intros [= <- _ _].
  - destruct (truthy (default VUndef (assoc "data" fields))).
    + destruct (spread _); [| discriminate]. by intros [= <- _ _].
    + intros [= <- _ _]. by rewrite app_nil_r.
Qed.

Lemma consume_array items st :
  consume (VArr items) st = Ok (results st ++ items, VBool false, cursor st).
Proof. reflexivity. Qed.

Lemma guard_attempts (more : val) (n : nat) :
  truthy more && (n <? maxPaginationAttempts) = true -> n < maxPaginationAttempts.
Proof. intros H. apply andb_prop in H as [_ H]. by apply Nat.ltb_lt. Qed.

Section PaginationFacts.

Variable executeTool : nat -> PageRequest -> outcome val.
Variable t : string.
Variable base : gmap string val.

(** Once [hasMore] is falsy the loop is over. *)
Lemma paginate_stop st tr :
  truthy (hasMore st) = false ->
  paginate executeTool t base st tr = (Ok (results st), tr).
Proof.
  intros Hstop. funelim (paginate executeTool t base st tr); try done.
  all: pose proof Hguard as Hg; rewrite Hstop in Hg; discriminate.
Qed.

(** The loop from any state: it adds at most [max - attempts] fetches to
    the trace, returns what it had plus the items of the pages it
    fetched, in order, and fetches nothing after a plain array. *)
Lemma paginate_spec st tr :
  exists new, snd (paginate executeTool t base st tr) = tr ++ new /\
    length new <= maxPaginationAttempts - attempts st /\
    (forall rs, fst (paginate executeTool t base st tr) = Ok rs ->
                rs = results st ++ fetched_items new) /\
    (forall i rq items, new !! i = Some (rq, Ok (VArr items)) -> length new = S i).
Proof.
  funelim (paginate executeTool t base st tr).
  all: try rewrite <- Heqcall.
  all: try pose proof (guard_attempts _ _ Hguard) as Hlt.
  all: unfold maxPaginationAttempts in *.
  - (* the guard is false *)
    exists []. simpl. rewrite app_nil_r. repeat split; try done.
    + lia.
    + intros rs [= <-]. unfold fetched_items. simpl. by rewrite app_nil_r.
  - (* the fetch rejects *)
    eexists [_]. simpl. repeat split; try done.
    + lia.
    + intros [|i] rq items; simpl; [intros [= _ ?]; done | done].
  - (* a page is consumed and the loop goes on *)
    destruct H as (new & Htr & Hlen & Hres & Harr). simpl in *.
    exists ((page_request t base st, Ok response) :: new).
    split; [by rewrite Htr, <- app_assoc |].
    split; [simpl; lia |].
    split.
    + intros rs0 Hrs0. rewrite (Hres _ Hrs0).
      rewrite (consume_items _ _ _ _ _ Heq).
      unfold fetched_items. simpl. by rewrite app_assoc.
    + intros [|i] rq items; simpl.
      * intros [= _ ->]. rewrite consume_array in Heq. injection Heq as <- <- <-.
        rewrite paginate_stop in Htr by done. simpl in Htr.
        assert (new = []) as -> by (by eapply app_inv_head; rewrite app_nil_r).
        done.
      * intros Hi. f_equal. by eapply Harr.
  - (* the page cannot be consumed *)
    eexists [_]. simpl. repeat split; try done.
    + lia.
    + intros [|i] rq items; simpl; [| done].
      intros [= _ ->]. rewrite consume_array in Heq. done.
Qed.

End PaginationFacts.

(** C10.  Whatever the tool runtime answers, [executeWithPagination]
    comes to an end after at most [maxPaginationAttempts] = 100 fetches;
    a plain array is the last page fetched; and a returned list is the
    items of the fetched pages, in the order of the fetches. *)
Theorem executeWithPagination_bounded
    (executeTool : nat -> PageRequest -> outcome val) (h : heap) (call : ToolCall) :
  maxPaginationAttempts = 100 /\
  length (snd (executeWithPagination executeTool h call)) <= maxPaginationAttempts /\
  (forall i rq items,
     snd (executeWithPagination executeTool h call) !! i = Some (rq, Ok (VArr items)) ->
     length (snd (executeWithPagination executeTool h call)) = S i) /\
  (forall rs,
     fst (executeWithPagination executeTool h call) = Ok rs ->
     rs = fetched_items (snd (executeWithPagination executeTool h call))).
Proof.
  unfold executeWithPagination.
  destruct (paginate_spec executeTool (tool call) (spread_params h (params call))
              (mkPageLoop [] (VBool true) VNull 0) []) as (new & Htr & Hlen & Hres & Harr).
  simpl in *. rewrite Htr.
  split; [reflexivity |]. split; [exact Hlen |]. split; [done |].
  intros rs Hrs. by apply Hres.
Qed.

Lemma executeWithPagination_bounded_witness :
  fst (executeWithPagination executeTool_mock Samples.empty_bag Samples.list_issues) = Ok [] /\
  [] = fetched_items
         (snd (executeWithPagination executeTool_mock Samples.empty_bag Samples.list_issues)).
Proof.
  split; [vm_compute; reflexivity |].
  apply (executeWithPagination_bounded executeTool_mock Samples.empty_bag Samples.list_issues).
  vm_compute. reflexivity.
Defined.

(** A runtime whose answers have none of the three shapes keeps the loop
    going until the bound stops it, with nothing collected. *)
Example pagination_unrecognised_shape :
  let run := executeWithPagination (fun _ _ => Ok (VObj [("items", VArr [VNum 1])]))
                                   Samples.empty_bag Samples.list_issues in
  fst run = Ok [] /\ length (snd run) = 100.
Proof. vm_compute. split; reflexivity. Qed.

(** Two pages in the [data] / [next_page] shape, then a plain array. *)
Example pagination_three_pages :
  let answers (n : nat) (_ : PageRequest) :=
    match n with
    | 0 => Ok (VObj [("data", VArr [VNum 1; VNum 2]); ("next_page", VStr "p2")])
    | 1 => Ok (VObj [("nodes", VArr [VNum 3]);
                     ("pageInfo", VObj [("hasNextPage", VBool true);
                                        ("endCursor", VStr "c3")])])
    | _ => Ok (VArr [VNum 4])
    end in
  let run := executeWithPagination answers Samples.empty_bag Samples.list_issues in
  fst run = Ok [VNum 1; VNum 2; VNum 3; VNum 4] /\
  map (fun e => req_params (fst e) !! "cursor") (snd run)
    = [None; Some (VStr "p2"); Some (VStr "c3")].
Proof. vm_compute. split; reflexivity. Qed.

(* ===================================================================== *)
(** * The snapshot store                                                  *)
(* ===================================================================== *)

Import StateManager.

(** [exportYAML] never rejects; it logs its failure. *)
Lemma exportYAML_swallows (env : Env) (state : CalibrationState) (w : World) :
  exists w', exportYAML env state w = (Ok tt, w') /\
    files w' !! calibrationPath = files w !! calibrationPath /\
    match export_failure env state with
    | Some _ => files w' = files w /\ console w' = console w ++ ["Failed to export YAML"]
    | None => exists y, yaml_dump env state = Ok y /\
                        files w' !! yamlExportPath = Some y /\
                        console w' = console w ++ ["YAML export created"]
    end.
Proof.
  unfold exportYAML, export_failure, try_catch, bind, lift, fs_writeFile,
    console_log, console_error, modify.
  destruct (yaml_dump env state) as [y | e]; simpl.
  - destruct (writeFile_error env yamlExportPath); simpl.
    + eexists. split; [reflexivity |]. simpl. done.
    + eexists. split; [reflexivity |]. simpl.
      split; [by rewrite lookup_insert_ne |].
      exists y. by rewrite lookup_insert_eq.
  - eexists. split; [reflexivity |]. simpl. done.
Qed.

(** What [save] does, by what the primary write does. *)
Lemma save_outcome (env : Env) (state : CalibrationState) (w : World) :
  match primary_failure env with
  | Some e => exists w', save env state w = (Throw e, w')
  | None =>
      exists w', save env state w = (Ok tt, w') /\
        files w' !! calibrationPath = Some (JSON_stringify env state) /\
        (is_Some (export_failure env state) -> In "Failed to export YAML" (console w')) /\
        (export_failure env state = None ->
         exists y, yaml_dump env state = Ok y /\ files w' !! yamlExportPath = Some y)
  end.
Proof.
  unfold save, primary_failure.
  destruct (mkdir_error env dataDir) as [e0 |] eqn:Hmk.
  { eexists. erewrite try_catch_Throw; [reflexivity |].
    apply bind_Throw. unfold fs_mkdir. by rewrite Hmk. }
  destruct (writeFile_error env calibrationPath) as [e1 |] eqn:Hwr.
  { eexists. erewrite try_catch_Throw; [reflexivity |].
    erewrite bind_Ok; [| unfold fs_mkdir; by rewrite Hmk].
    apply bind_Throw. unfold fs_writeFile. by rewrite Hwr. }
  destruct (exportYAML_swallows env state
              (mkWorld (<[calibrationPath := JSON_stringify env state]> (files w))
                       (console w) (clock w)))
    as (w1 & Hexport & Hjson & Hexp).
  simpl in Hjson, Hexp. rewrite lookup_insert_eq in Hjson.
  eexists. split.
  { erewrite try_catch_Ok; [reflexivity |].
    erewrite bind_Ok; [| unfold fs_mkdir; by rewrite Hmk].
    erewrite bind_Ok; [| unfold fs_writeFile; by rewrite Hwr].
    erewrite bind_Ok; [| exact Hexport].
    reflexivity. }
  simpl. split; [done |].
  destruct (export_failure env state).
  - destruct Hexp as [_ ->]. split; [| discriminate].
    intros _. apply in_or_app. left. apply in_or_app. right. by left.
  - split; [intros [? [=]] |]. intros _.
    destruct Hexp as (y & Hy & Hf & _). eauto.
Qed.

(** C9.  [save] rejects exactly when the primary write (the data
    directory, then the JSON file) fails, and with that failure; a failed
    YAML export is logged and [save] returns; when nothing fails both
    files are written. *)
Theorem save_fails_iff_primary (env : Env) (state : CalibrationState) (w : World) :
  (forall e, (exists w', save env state w = (Throw e, w')) <-> primary_failure env = Some e) /\
  (primary_failure env = None ->
   exists w', save env state w = (Ok tt, w') /\
     files w' !! calibrationPath = Some (JSON_stringify env state) /\
     (is_Some (export_failure env state) -> In "Failed to export YAML" (console w')) /\
     (export_failure env state = None ->
      exists y, yaml_dump env state = Ok y /\ files w' !! yamlExportPath = Some y)).
Proof.
  pose proof (save_outcome env state w) as H.
  destruct (primary_failure env) as [e0 |].
  - destruct H as (w0 & H). split; [| discriminate].
    intros e. split.
    + intros (w' & Hw'). congruence.
    + intros [= <-]. eauto.
  - split; [| done].
    destruct H as (w0 & H & _). intros e. split; [| discriminate].
    intros (w' & Hw'). congruence.
Qed.

(** An environment in which only the YAML file cannot be written, and
    one in which the JSON file cannot. *)
Lemma save_fails_iff_primary_witness :
  exists env w', 
    primary_failure env = None /\
    export_failure env (mkCalibrationState 0 (mkConnectors None None None None))
      = Some (mkError "EACCES") /\
    save env (mkCalibrationState 0 (mkConnectors None None None None))
         (mkWorld ∅ [] 0) = (Ok tt, w') /\
    files w' !! calibrationPath = Some "{}" /\
    In "Failed to export YAML" (console w').
Proof.
  pose (env := mkEnv (fun _ => None)
                 (fun p => if String.eqb p yamlExportPath then Some (mkError "EACCES") else None)
                 (fun _ => "{}") (fun _ => "{}") (fun _ => Ok "{}")
                 (fun a _ => Ok a)).
  destruct (save_fails_iff_primary env
              (mkCalibrationState 0 (mkConnectors None None None None))
              (mkWorld ∅ [] 0)) as [_ Hok].
  destruct (Hok eq_refl) as (w' & Hsave & Hjson & Hlog & _).
  exists env, w'. repeat split; try done.
  apply Hlog. vm_compute. eauto.
Defined.

Example save_primary_failure_propagates :
  fst (save (mkEnv (fun _ => None)
                   (fun p => if String.eqb p calibrationPath
                             then Some (mkError "ENOSPC") else None)
                   (fun _ => "{}") (fun _ => "{}") (fun _ => Ok "{}") (fun a _ => Ok a))
            (mkCalibrationState 0 (mkConnectors None None None None))
            (mkWorld ∅ [] 0))
  = Throw (mkError "ENOSPC").
Proof. vm_compute. reflexivity. Qed.

(* ===================================================================== *)
(** * The calibrator                                                      *)
(* ===================================================================== *)

Import Calibrator.

(** The handler of a probe: it logs, reads [error.message], then the
    clock. *)
Lemma probe_handler (line : string) (e : Error) (w : World) :
  (console_error line ;;; failedStatus e)%js w
  = match message e with
    | Ok m => (Ok (mkConnectorStatus failed None None None None None (Some m) (clock w)),
               mkWorld (files w) (console w ++ [line]) (clock w))
    | Throw e' => (Throw e', mkWorld (files w) (console w ++ [line]) (clock w))
    end.
Proof.
  unfold bind, console_error, console_log, modify, failedStatus, bind, lift, now, gets, ret.
  simpl. by destruct (message e).
Qed.

Lemma caught_TypeError env c v k : nullish v = true -> caught env c (TypeError v k).
Proof. intros H. left. by exists v, k. Qed.

Lemma caught_call env c e : In (Throw e) (client_calls c) -> caught env c e.
Proof. intros H. right. by left. Qed.

Lemma caught_plus env c a b e : js_plus env a b = Throw e -> caught env c e.
Proof. intros H. right. right. by exists a, b. Qed.

(** A probe ends as its [try] block lets it. *)
Lemma probe_ends_of_body (env : Env) (c : Clients)
    (body : M World ConnectorStatus) (line : string) (w : World) :
  (exists cs w', body w = (Ok cs, w') /\ probe_succeeded cs /\
                 last_verified cs = clock w /\
                 files w' = files w /\ clock w' = clock w) \/
  (exists e w', body w = (Throw e, w') /\ caught env c e /\
                files w' = files w /\ clock w' = clock w) ->
  probe_ends env c (try_catch body (fun error => console_error line ;;; failedStatus error)) w.
Proof.
  intros [(cs & w' & Hb & H) | (e & w' & Hb & Hc & Hf & Ht)].
  - left. exists cs, w'. split; [| exact H]. by apply try_catch_Ok.
  - right. exists e, (mkWorld (files w') (console w' ++ [line]) (clock w')).
    split; [exact Hc |]. split; [exact Hf |]. split; [exact Ht |].
    erewrite try_catch_Throw; [| exact Hb]. rewrite probe_handler, Ht.
    by destruct (message e).
Qed.

Ltac body_throws :=
  right; eexists _, _; split; [reflexivity |]; split;
  [ first [ eapply caught_TypeError; eassumption
          | eapply caught_plus; eassumption
          | apply caught_call; unfold client_calls;
            match goal with H : _ = Throw _ |- _ => rewrite <- H end; simpl; tauto ]
  | split; reflexivity ].

Ltac body_step :=
  match goal with
  | |- context [match ?o with Ok _ => _ | Throw _ => _ end] =>
      let H := fresh "Hc" in destruct o as [? | ?] eqn:H; simpl; [| body_throws]
  | |- context [if nullish ?v then _ else _] =>
      let H := fresh "Hn" in destruct (nullish v) eqn:H; simpl; [body_throws |]
  end.

Ltac run_body :=
  apply probe_ends_of_body;
  unfold bind, lift, ret, now, gets, console_log, modify, read, read0; simpl;
  repeat body_step;
  left; eexists _, _; split; [reflexivity |]; by repeat split.

Lemma calibrateAsana_ends (env : Env) (c : Clients) (w : World) :
  probe_ends env c (calibrateAsana c) w.
Proof. unfold calibrateAsana. run_body. Qed.

Lemma calibrateLinear_ends (env : Env) (c : Clients) (w : World) :
  probe_ends env c (calibrateLinear c) w.
Proof. unfold calibrateLinear. run_body. Qed.

Lemma calibrateGitHub_ends (env : Env) (c : Clients) (w : World) :
  probe_ends env c (calibrateGitHub env c) w.
Proof. unfold calibrateGitHub. run_body. Qed.

Lemma calibrateNotion_ends (env : Env) (c : Clients) (w : World) :
  probe_ends env c (calibrateNotion c) w.
Proof. unfold calibrateNotion. run_body. Qed.

(** What a probe caught has a message, when the failures of the clients
    and of [+] have one: the rest are [TypeError]s. *)
Lemma caught_has_message (env : Env) (c : Clients) (e : Error) :
  failures_have_messages env c -> caught env c e -> has_message e.
Proof.
  intros [Hcalls Hplus] [(v & k & _ & ->) | [Hin | (a & b & Hab)]].
  - eexists. split; [reflexivity | discriminate].
  - by apply Hcalls.
  - by apply (Hplus a b).
Qed.

(** Then the probe settles, and what it settles to keeps the invariant. *)
Lemma probe_ends_settles (env : Env) (c : Clients)
    (probe : M World ConnectorStatus) (w : World) :
  failures_have_messages env c ->
  probe_ends env c probe w ->
  exists cs w', probe w = (Ok cs, w') /\ status_invariant cs /\
                files w' = files w /\ clock w' = clock w.
Proof.
  intros Hf [(cs & w' & Hp & [Hs He] & _ & Hfiles & Hclock) | (e & w' & Hc & Hfiles & Hclock & Hp)].
  - exists cs, w'. split; [exact Hp |]. split; [| done].
    assert (Hn : ~ present (error cs)) by (rewrite He; intros (v & [=] & _)).
    unfold status_invariant. rewrite Hs. split; [done |]. split; [discriminate |].
    intros [_ H]. by apply Hn.
  - destruct (caught_has_message env c e Hf Hc) as (m & Hm & Hdef).
    rewrite Hm in Hp. eexists _, w'. split; [exact Hp |]. split; [| done].
    assert (Hid : ~ has_identity
                      (mkConnectorStatus failed None None None None None (Some m) (clock w))).
    { unfold has_identity. simpl.
      intros [[? [=]] | [[? [=]] | [[? [=]] | [[? [=]] | [? [=]]]]]]. }
    unfold status_invariant. simpl. split; [discriminate |]. split.
    + intros _. split; [by exists m | exact Hid].
    + intros [H _]. by apply Hid.
Qed.

(** A probe whose [try] block throws [e] ends as its handler decides. *)
Lemma handled_of_body (body : M World ConnectorStatus) (line : string)
    (w w' : World) (e : Error) :
  body w = (Throw e, w') -> clock w' = clock w ->
  handled (try_catch body (fun error => console_error line ;;; failedStatus error)) w e.
Proof.
  intros Hb Ht. unfold handled.
  erewrite try_catch_Throw; [| exact Hb]. rewrite probe_handler, Ht.
  destruct (message e); [| by eexists].
  eexists _, _. split; [reflexivity |]. by repeat split.
Qed.

Ltac body_runs := unfold bind, lift, ret, now, gets, console_log, modify, read, read0; simpl.

(** [Promise.all] rejects with what its first promise rejects with. *)
Lemma promise_all4_first_rejects {S A} (a b c d : M S A) s e s1 :
  a s = (Throw e, s1) ->
  exists s', promise_all4 a b c d s = (Throw e, s').
Proof.
  intros Ha. unfold promise_all4, bind, settle, throw. rewrite Ha.
  destruct (b s1) as [rb s2]. destruct (c s2) as [rc s3]. destruct (d s3) as [rd s4].
  by eexists.
Qed.

(** A rejection of the first Asana call with [null] or [undefined] goes
    through the handler of the probe, through [Promise.all] and through
    [calibrate], whatever the other clients and the store do. *)
Lemma calibrate_propagates_nullish_rejection
    (env : Env) (c : Clients) (w : World) (v : val) :
  nullish v = true ->
  asana_getCurrentUser c = Throw (Rejection v) ->
  exists w', calibrate env c w = (Throw (TypeError v "message"), w').
Proof.
  intros Hv Hc.
  set (w0 := mkWorld (files w) (console w ++ ["Starting MCP Connector Calibration..."])
                     (clock w)).
  assert (Hprobe : exists w1, calibrateAsana c w0 = (Throw (TypeError v "message"), w1)).
  { assert (Hh : handled (calibrateAsana c) w0 (Rejection v)).
    { unfold calibrateAsana.
      eapply handled_of_body; [body_runs; rewrite Hc; reflexivity | reflexivity]. }
    unfold handled, message, read in Hh. by rewrite Hv in Hh. }
  destruct Hprobe as (w1 & Hprobe).
  destruct (promise_all4_first_rejects _ (calibrateLinear c) (calibrateGitHub env c)
              (calibrateNotion c) _ _ _ Hprobe) as (w4 & Hall).
  exists w4. unfold calibrate.
  erewrite bind_Ok; [| reflexivity]. erewrite bind_Ok; [| reflexivity].
  by erewrite bind_Throw; [| exact Hall].
Qed.

(** C5, at the failing input.  The Asana client rejects with
    [{ code: 'ETIMEDOUT' }], a value without a [message].  The probe
    catches it and settles as [failed], but the [error] it reports is
    [undefined]: a failed status with no error, against the invariant. *)
Theorem failed_probe_without_error :
  asana_getCurrentUser Scenarios.clients_coded_rejection
    = Throw (Rejection (VObj [("code", VStr "ETIMEDOUT")])) /\
  exists cs w',
    calibrateAsana Scenarios.clients_coded_rejection Scenarios.blank_world = (Ok cs, w') /\
    status cs = failed /\
    error cs = Some VUndef /\
    ~ present (error cs) /\
    ~ status_invariant cs.
Proof.
  split; [reflexivity |].
  eexists _, _. split; [vm_compute; reflexivity |]. simpl.
  split; [reflexivity |]. split; [reflexivity |].
  assert (Hn : ~ present (Some VUndef)) by (intros (v & [= <-] & Hv); by apply Hv).
  split; [exact Hn |].
  intros (_ & Hfailed & _). by destruct (Hfailed eq_refl) as [Hp _].
Qed.

(** C3, at the failing input.  The Asana client rejects without a reason,
    so that the caught value is [undefined].  The handler of the probe
    reads [error.message], which throws; the probe rejects,
    [Promise.all] rejects with it, and so does [calibrate], although the
    other three probes went through and nothing stands in the way of
    storing the snapshot: no snapshot is returned and none is stored. *)
Theorem calibrate_rejects_with_probe :
  asana_getCurrentUser Scenarios.clients_bare_rejection = Throw (Rejection VUndef) /\
  primary_failure Scenarios.quiet_env = None /\
  fst (calibrateAsana Scenarios.clients_bare_rejection Scenarios.blank_world)
    = Throw (mkError "Cannot read properties of undefined (reading 'message')") /\
  exists w',
    calibrate Scenarios.quiet_env Scenarios.clients_bare_rejection Scenarios.blank_world
      = (Throw (mkError "Cannot read properties of undefined (reading 'message')"), w') /\
    files w' = ∅ /\
    In "Calibrating Notion..." (console w') /\
    ~ In "Calibration Complete" (console w').
Proof.
  split; [reflexivity |]. split; [reflexivity |]. split; [vm_compute; reflexivity |].
  eexists. split; [vm_compute; reflexivity |]. split; [reflexivity |].
  split; [simpl; tauto |].
  simpl. intros H.
  repeat (destruct H as [H | H]; [discriminate H |]). destruct H.
Qed.

Example calibrate_all_probes_fail :
  (fun st => (status <$> asana (connectors st), error <$> github (connectors st)))
  <$> match fst (calibrate
              (mkEnv (fun _ => None) (fun _ => None) (fun _ => "{}") (fun _ => "{}")
                     (fun _ => Ok "{}") (fun a _ => Ok a))
              (mkClients (Throw (mkError "401")) (Throw (mkError "401"))
                         (Throw (mkError "timeout")) (Throw (mkError "timeout"))
                         (Throw (mkError "403")) (Throw (mkError "403"))
                         (Throw (mkError "ECONNRESET")))
              (mkWorld ∅ [] 0)) with
      | Ok st => Some st
      | Throw _ => None
      end
  = Some (Some failed, Some (Some (VStr "403"))).
Proof. vm_compute. reflexivity. Qed.

(* ===================================================================== *)
(** * The health monitor                                                  *)
(* ===================================================================== *)

Import HealthMonitor.

Lemma determineOverall_healthy (statuses : list HStatus) :
  determineOverall statuses = ohealthy <-> Forall (fun s => s = healthy) statuses.
Proof.
  unfold determineOverall.
  assert (H : forallb is_healthy statuses = true <-> Forall (fun s => s = healthy) statuses).
  { rewrite forallb_forall, Forall_forall. split; intros H s Hs.
    - apply list_elem_of_In in Hs. specialize (H s Hs). by destruct s.
    - apply list_elem_of_In in Hs. by rewrite (H s Hs). }
  destruct (forallb is_healthy statuses).
  - split; [intros _; by apply H | done].
  - split.
    + destruct (existsb is_failed statuses); discriminate.
    + intros HF. apply H in HF. discriminate.
Qed.

Lemma existsb_failed (statuses : list HStatus) :
  existsb is_failed statuses = true <-> Exists (fun s => s = hfailed) statuses.
Proof.
  rewrite existsb_exists, Exists_exists. split.
  - intros (s & Hs & Hf). exists s. split; [by apply list_elem_of_In |]. by destruct s.
  - intros (s & Hs & ->). exists hfailed. split; [by apply list_elem_of_In | done].
Qed.

Lemma determineOverall_degraded (statuses : list HStatus) :
  determineOverall statuses = degraded <-> Exists (fun s => s = hfailed) statuses.
Proof.
  rewrite <- existsb_failed. unfold determineOverall.
  destruct (forallb is_healthy statuses) eqn:Hall.
  - split; [discriminate |]. intros Hex. exfalso.
    apply existsb_exists in Hex as (s & Hs & Hf).
    rewrite forallb_forall in Hall. specialize (Hall s Hs). by destruct s.
  - destruct (existsb is_failed statuses); split; done.
Qed.

Lemma determineOverall_warning (statuses : list HStatus) :
  determineOverall statuses = owarning <->
  ~ Forall (fun s => s = healthy) statuses /\ ~ Exists (fun s => s = hfailed) statuses.
Proof.
  rewrite <- determineOverall_healthy, <- determineOverall_degraded.
  destruct (determineOverall statuses); split; try done; intros [? ?]; done.
Qed.

(** C6.  In the health snapshot of a cycle, [overall] is [healthy]
    exactly when every connector is, [degraded] exactly when some
    connector [failed], and [warning] in every other case. *)
Theorem overall_health_classification
    (timestamp : nat) (c0 c1 c2 c3 : ConnectorHealth) :
  values (hconnectors (assembleHealth timestamp (c0, c1, c2, c3))) = [c0; c1; c2; c3] /\
  (overall (assembleHealth timestamp (c0, c1, c2, c3)) = ohealthy <->
   Forall (fun s => s = healthy) (map hstatus [c0; c1; c2; c3])) /\
  (overall (assembleHealth timestamp (c0, c1, c2, c3)) = degraded <->
   Exists (fun s => s = hfailed) (map hstatus [c0; c1; c2; c3])) /\
  (overall (assembleHealth timestamp (c0, c1, c2, c3)) = owarning <->
   ~ Forall (fun s => s = healthy) (map hstatus [c0; c1; c2; c3]) /\
   ~ Exists (fun s => s = hfailed) (map hstatus [c0; c1; c2; c3])).
Proof.
  split; [reflexivity |].
  split; [apply determineOverall_healthy |].
  split; [apply determineOverall_degraded | apply determineOverall_warning].
Qed.

Example overall_one_failed :
  overall (assembleHealth 0 (mkConnectorHealth healthy 12 0 None,
                             mkConnectorHealth hfailed 30 0 None,
                             mkConnectorHealth healthy 8 0 None,
                             mkConnectorHealth warning 9 0 None)) = degraded.
Proof. reflexivity. Qed.

Example overall_one_warning :
  overall (assembleHealth 0 (mkConnectorHealth healthy 12 0 None,
                             mkConnectorHealth healthy 30 0 None,
                             mkConnectorHealth warning 8 0 None,
                             mkConnectorHealth healthy 9 0 None)) = owarning.
Proof. reflexivity. Qed.

(** What a cycle returns is assembled from its four checks. *)
Lemma runHealthCheck_assembles (env : Env) (c : Clients) (w w' : World) (hs : HealthStatus) :
  runHealthCheck env c w = (Ok hs, w') ->
  exists ts checks, hs = assembleHealth ts checks.
Proof.
  unfold runHealthCheck. unfold bind at 1. simpl. unfold bind at 1. simpl.
  unfold bind at 1.
  destruct (promise_all4 _ _ _ _ _) as [[checks | e] w1]; [| discriminate].
  unfold bind.
  destruct (logHealthStatus _ _) as [[[] | e] w2]; [| discriminate].
  destruct (match overall (assembleHealth (clock w) checks) with
            | ohealthy => ret tt | _ => alertOnFailure _ end w2) as [[[] | e] w3];
    [| discriminate].
  destruct (saveHealth _ _ _) as [[[] | e] w4]; [| discriminate].
  intros [= <- _]. eauto.
Qed.

(** A health check leaves the monitor's flag and timers alone and counts
    as one cycle. *)
Lemma fireHealthCheck_fields (env : Env) (c : Clients) (m : Monitor) :
  monitoringActive (fireHealthCheck env c m) = monitoringActive m /\
  intervals (fireHealthCheck env c m) = intervals m /\
  cycles (fireHealthCheck env c m) = S (cycles m).
Proof. unfold fireHealthCheck. by destruct (runHealthCheck env c (world m)). Qed.

(** [start()] while monitoring registers no timer and runs no check. *)
Lemma start_when_active (env : Env) (c : Clients) (m : Monitor) :
  monitoringActive m = true ->
  intervals (start env c m) = intervals m /\ cycles (start env c m) = cycles m /\
  monitoringActive (start env c m) = true.
Proof. intros H. unfold start. rewrite H. done. Qed.

(** [n] timer callbacks in a row, the flag being set. *)
Lemma callbacks_cycles (env : Env) (c : Clients) (m : Monitor) (n : nat) :
  monitoringActive m = true ->
  cycles (Nat.iter n (intervalCallback env c) m) = cycles m + n /\
  intervals (Nat.iter n (intervalCallback env c) m) = intervals m /\
  monitoringActive (Nat.iter n (intervalCallback env c) m) = true.
Proof.
  intros Ha. induction n as [| n (IH1 & IH2 & IH3)]; simpl.
  - split; [lia | done].
  - unfold intervalCallback at 1 3 5. rewrite IH3.
    destruct (fireHealthCheck_fields env c
                (Nat.iter n (intervalCallback env c) m)) as (F1 & F2 & F3).
    rewrite F1, F2, F3, IH1, IH2, IH3. split; [lia | done].
Qed.

(** With [n] timers registered and the flag set, one period runs [n]
    checks. *)
Lemma elapse_cycles (env : Env) (c : Clients) (m : Monitor) :
  monitoringActive m = true ->
  cycles (elapse env c m) = cycles m + intervals m /\
  intervals (elapse env c m) = intervals m /\
  monitoringActive (elapse env c m) = true.
Proof. intros Ha. unfold elapse. by apply callbacks_cycles. Qed.

(** [start()] on an idle monitor sets the flag, runs one check and
    registers one more timer. *)
Lemma start_when_idle (env : Env) (c : Clients) (m : Monitor) :
  monitoringActive m = false ->
  intervals (start env c m) = S (intervals m) /\
  cycles (start env c m) = S (cycles m) /\
  monitoringActive (start env c m) = true.
Proof.
  intros Hm. unfold start. rewrite Hm. cbv zeta.
  match goal with
  | |- context [fireHealthCheck env c ?m2] =>
      destruct (fireHealthCheck_fields env c m2) as (F1 & F2 & F3)
  end.
  cbn [intervals cycles monitoringActive]. rewrite F1, F2, F3. done.
Qed.

(** [stop()] clears the flag and leaves the timers registered. *)
Lemma stop_fields (m : Monitor) :
  intervals (stop m) = intervals m /\ cycles (stop m) = cycles m /\
  monitoringActive (stop m) = false.
Proof. done. Qed.

(** C8, at the failing input.  [stop()] clears no timer, so after
    [start(); stop(); start()] two timers are registered and the flag is
    set: one period runs two check cycles, where a single schedule (one
    [start()]) runs one. *)
Theorem restart_leaves_two_timers (env : Env) (c : Clients) (w : World) :
  intervals (run env c [Start; Stop; Start] (fresh_monitor w)) = 2 /\
  monitoringActive (run env c [Start; Stop; Start] (fresh_monitor w)) = true /\
  cycles (elapse env c (run env c [Start; Stop; Start] (fresh_monitor w)))
    = cycles (run env c [Start; Stop; Start] (fresh_monitor w)) + 2 /\
  cycles (elapse env c (run env c [Start] (fresh_monitor w)))
    = cycles (run env c [Start] (fresh_monitor w)) + 1.
Proof.
  change (run env c [Start; Stop; Start] (fresh_monitor w))
    with (start env c (stop (start env c (fresh_monitor w)))).
  change (run env c [Start] (fresh_monitor w)) with (start env c (fresh_monitor w)).
  destruct (start_when_idle env c (fresh_monitor w) eq_refl) as (S1 & _ & A1).
  destruct (stop_fields (start env c (fresh_monitor w))) as (S2 & _ & A2).
  destruct (start_when_idle env c _ A2) as (S3 & _ & A3).
  destruct (elapse_cycles env c _ A3) as (E3 & _).
  destruct (elapse_cycles env c _ A1) as (E1 & _).
  rewrite E3, E1, S3, S2, S1. done.
Qed.
(* ===================================================================== *)
(** * More on the enforcement pipeline                                    *)
(* ===================================================================== *)

(** One block of rule 1, exactly: it fires when the prefix matches, the
    parameter is falsy and the snapshot holds the entity; then it writes
    the identifier and records its message. *)
Lemma inject_block_exact state prefix key conn field idkey msg s t l :
  enhanced (res s) = mkToolCall t (PObj l) ->
  inject_block state prefix key conn field idkey msg s =
  (Ok tt,
   if startsWith t prefix && negb (truthy (default VUndef (deref (hp s) l !! key)))
      && truthy (snapshot_entity state conn field)
   then mkEState (<[l := <[key := get (snapshot_entity state conn field) idkey]>
                            (deref (hp s) l)]> (hp s))
                 (mkResult (original (res s)) (enhanced (res s))
                           (modifications (res s) ++ [msg])
                           (enforce_pagination (res s)) (chain_operations (res s)))
   else s).
Proof.
  intros He. unfold inject_block, snapshot_entity, bind, gets, read_param, ret.
  rewrite He. simpl.
  destruct (startsWith t prefix); [| done]. simpl.
  destruct (truthy (default VUndef (deref (hp s) l !! key))); simpl; [done |].
  destruct (truthy _); [| done].
  simpl. rewrite ?He. simpl. unfold push_modification, modify. simpl. by rewrite He.
Qed.

(** What does not change under [touches_only]. *)
Lemma touches_only_key l ks ms s s' k :
  touches_only l ks ms s s' -> ~ In k ks ->
  deref (hp s') l !! k = deref (hp s) l !! k.
Proof. intros (_ & _ & _ & _ & _ & T & _) Hk. by apply T. Qed.

Lemma touches_only_modification l ks ms s s' m :
  touches_only l ks ms s s' -> In m (modifications (res s)) ->
  In m (modifications (res s')).
Proof.
  intros (_ & _ & _ & _ & (extra & -> & _) & _) Hm. apply in_or_app. by left.
Qed.

(** A block keeps every property of the bag, and every truthy value. *)
Lemma inject_block_keeps state prefix key conn field idkey msg s t l :
  enhanced (res s) = mkToolCall t (PObj l) ->
  exists s', inject_block state prefix key conn field idkey msg s = (Ok tt, s') /\
    enhanced (res s') = enhanced (res s) /\
    (forall k, is_Some (deref (hp s) l !! k) -> is_Some (deref (hp s') l !! k)) /\
    (forall k v, deref (hp s) l !! k = Some v -> truthy v = true \/ k <> key ->
                 deref (hp s') l !! k = Some v).
Proof.
  intros He. rewrite (inject_block_exact _ _ _ _ _ _ _ _ _ _ He).
  eexists. split; [reflexivity |].
  destruct (startsWith t prefix); simpl; [| done].
  destruct (truthy (default VUndef (deref (hp s) l !! key))) eqn:Hcur; simpl; [done |].
  destruct (truthy (snapshot_entity state conn field)); simpl; [| done].
  rewrite deref_insert. split; [done |]. split.
  - intros k Hk. destruct (decide (k = key)) as [-> | Hne].
    + rewrite lookup_insert_eq. eauto.
    + by rewrite lookup_insert_ne.
  - intros k v Hk Hor. destruct (decide (k = key)) as [-> | Hne].
    + exfalso. rewrite Hk in Hcur. simpl in Hcur. destruct Hor; congruence.
    + by rewrite lookup_insert_ne.
Qed.

Lemma injectIdentifiers_keeps state s t l :
  enhanced (res s) = mkToolCall t (PObj l) ->
  exists s', injectIdentifiers state s = (Ok tt, s') /\
    (forall k, is_Some (deref (hp s) l !! k) -> is_Some (deref (hp s') l !! k)) /\
    (forall k v, deref (hp s) l !! k = Some v ->
                 truthy v = true \/ ~ In k identifierKeys ->
                 deref (hp s') l !! k = Some v).
Proof.
  intros He. unfold injectIdentifiers.
  destruct (inject_block_keeps state "asana" "workspace" "asana" "workspace" "gid"
              "Injected Asana workspace ID" s t l He) as (s1 & E1 & He1 & P1 & K1).
  rewrite He in He1.
  destruct (inject_block_keeps state "linear" "teamId" "linear" "team" "id"
              "Injected Linear team ID" s1 t l He1) as (s2 & E2 & He2 & P2 & K2).
  rewrite He1 in He2.
  destruct (inject_block_keeps state "notion" "workspace_id" "notion" "workspace" "id"
              "Injected Notion workspace ID" s2 t l He2) as (s3 & E3 & He3 & P3 & K3).
  rewrite He2 in He3.
  destruct (inject_block_keeps state "github" "owner" "github" "user" "login"
              "Injected GitHub owner" s3 t l He3) as (s4 & E4 & _ & P4 & K4).
  exists s4. split; [| split].
  - unfold bind at 1. rewrite E1. unfold bind at 1. rewrite E2.
    unfold bind at 1. rewrite E3. exact E4.
  - auto.
  - intros k v Hk Hor.
    assert (Hall : forall key, In key identifierKeys -> truthy v = true \/ k <> key).
    { intros key Hkey. destruct Hor as [? | Hn]; [by left | right]. by intros ->. }
    apply K4; [| apply Hall; simpl; tauto].
    apply K3; [| apply Hall; simpl; tauto].
    apply K2; [| apply Hall; simpl; tauto].
    apply K1; [| apply Hall; simpl; tauto]. done.
Qed.

(** Rules 3 and 4 leave the bag of the call alone when it is in the
    store. *)
Lemma tail_rules_obj call l s :
  params call = PObj l ->
  exists s', (paginationRule call ;;; chainingRule call)%js s = (Ok tt, s') /\
    (is_Some (hp s !! l) -> deref (hp s') l = deref (hp s) l) /\
    (forall l', is_Some (hp s !! l') -> hp s' !! l' = hp s !! l') /\
    (forall l', is_Some (hp s' !! l') ->
                is_Some (hp s !! l') \/ l' = fresh (dom (hp s))) /\
    modifications (res s') = modifications (res s) ++
      (if requiresPagination call then ["Pagination enforcement enabled"] else []) ++
      (if requiresChaining call then ["Operation chaining configured"] else []) /\
    enforce_pagination (res s') =
      (if requiresPagination call then Some true else enforce_pagination (res s)) /\
    chain_operations (res s') =
      (if requiresChaining call then
         Some (call :: if includes (tool call) "create_issue" &&
                          truthy (default VUndef (deref (hp s) l !! "labels"))
                       then [mkToolCall "add_labels" (PObj (fresh (dom (hp s))))] else [])
       else chain_operations (res s)).
Proof.
  intros Hp. unfold bind at 1.
  destruct (paginationRule_spec call s) as (s2 & -> & P0 & _ & _ & P3 & P4 & P5).
  destruct (chainingRule_obj call l s2 Hp) as (s3 & -> & _ & _ & C3 & C4 & C5 & C6).
  exists s3. split; [reflexivity |].
  rewrite P0 in C5, C6.
  assert (Hfresh : forall l', is_Some (hp s !! l') -> fresh (dom (hp s)) <> l').
  { intros l' Hl' Heq. apply elem_of_dom in Hl'. rewrite <- Heq in Hl'.
    by apply is_fresh in Hl'. }
  repeat split.
  - intros Hl. rewrite C6. destruct (requiresChaining call && _); [| done].
    apply deref_insert_ne. by apply Hfresh.
  - intros l' Hl'. rewrite C6. destruct (requiresChaining call && _); [| done].
    apply lookup_insert_ne. by apply Hfresh.
  - intros l'. rewrite C6. destruct (requiresChaining call && _); [| by left].
    destruct (decide (fresh (dom (hp s)) = l')) as [<- | Hne]; [by right |].
    rewrite lookup_insert_ne by done. by left.
  - by rewrite C4, P5, <- app_assoc.
  - by rewrite C3, P4.
  - by rewrite C5, P3.
Qed.

(** [enforce] on an object bag, in two steps: rule 1, then rules 3 and 4
    (rule 2 changes nothing). *)
Lemma enforce_steps state call l h :
  params call = PObj l ->
  exists s1 s2,
    injectIdentifiers state
      (mkEState h (mkResult call (mkToolCall (tool call) (params call)) [] None None))
      = (Ok tt, s1) /\
    (paginationRule call ;;; chainingRule call)%js s1 = (Ok tt, s2) /\
    enforce (Ok state) call h = (Ok (res s2), hp s2).
Proof.
  intros Hp.
  set (s0 := mkEState h (mkResult call (mkToolCall (tool call) (params call)) [] None None)).
  assert (He : enhanced (res s0) = mkToolCall (tool call) (PObj l)) by (simpl; by rewrite Hp).
  destruct (injectIdentifiers_obj state s0 _ _ He) as (s1 & E1 & T1).
  destruct (tail_rules_obj call l s1 Hp) as (s2 & E2 & _).
  exists s1, s2. split; [done |]. split; [done |].
  unfold enforce, enforce_rules. fold s0.
  unfold bind at 1. rewrite E1. unfold bind at 1.
  rewrite (resolveIdentifiers_obj s1 _ _ (touches_only_enhanced _ _ _ _ _ _ T1 He)).
  by rewrite E2.
Qed.

Ltac enforce_by_steps state call l h Hp s0 s1 s2 E1 E2 He :=
  destruct (enforce_steps state call l h Hp) as (s1 & s2 & E1 & E2 & ->);
  set (s0 := mkEState h (mkResult call (mkToolCall (tool call) (params call)) [] None None))
    in *;
  assert (He : enhanced (res s0) = mkToolCall (tool call) (PObj l))
    by (simpl; by rewrite Hp).

(** X1.  [enforce] never removes a parameter, and changes neither a
    truthy value nor the value of a key that is not one of the four
    identifiers. *)
Theorem enforce_keeps_params (state : val) (call : ToolCall) (l : loc) (h : heap) :
  params call = PObj l ->
  is_Some (h !! l) ->
  exists r h', enforce (Ok state) call h = (Ok r, h') /\
    (forall k, is_Some (deref h l !! k) -> is_Some (deref h' l !! k)) /\
    (forall k v, deref h l !! k = Some v ->
                 truthy v = true \/ ~ In k identifierKeys ->
                 deref h' l !! k = Some v).
Proof.
  intros Hp Hl.
  enforce_by_steps state call l h Hp s0 s1 s2 E1 E2 He.
  destruct (injectIdentifiers_keeps state s0 _ _ He) as (s1' & E1' & P & K).
  rewrite E1 in E1'. injection E1' as <-.
  destruct (injectIdentifiers_obj state s0 _ _ He) as (s1' & E1' & T).
  rewrite E1 in E1'. injection E1' as <-.
  destruct (tail_rules_obj call l s1 Hp) as (s2' & E2' & D & _).
  rewrite E2 in E2'. injection E2' as <-.
  destruct T as (_ & _ & _ & _ & _ & _ & _ & T8).
  eexists _, _. split; [reflexivity |].
  rewrite (D (T8 Hl)). split; [exact P | exact K].
Qed.

Lemma enforce_keeps_params_witness :
  exists r h', enforce (Ok Samples.snapshot) Samples.asana_list_tasks Samples.workspace_bag
                 = (Ok r, h') /\
    deref h' 1%positive !! "workspace" = Some (VStr "W0").
Proof.
  destruct (enforce_keeps_params Samples.snapshot Samples.asana_list_tasks 1%positive
              Samples.workspace_bag eq_refl) as (r & h' & Hr & _ & Hkeep).
  { unfold Samples.workspace_bag. rewrite lookup_singleton_eq. eauto. }
  exists r, h'. split; [exact Hr |].
  apply Hkeep; [reflexivity | by left].
Defined.

(** X2.  [enforce] leaves every other bag of the store as it was, and
    adds at most one bag to the store: the one of the [add_labels] call. *)
Theorem enforce_frame (state : val) (call : ToolCall) (l : loc) (h : heap) :
  params call = PObj l ->
  is_Some (h !! l) ->
  exists r h', enforce (Ok state) call h = (Ok r, h') /\
    (forall l', l' <> l -> is_Some (h !! l') -> h' !! l' = h !! l') /\
    (forall l', is_Some (h' !! l') -> is_Some (h !! l') \/ l' = fresh (dom h)).
Proof.
  intros Hp Hl.
  enforce_by_steps state call l h Hp s0 s1 s2 E1 E2 He.
  destruct (injectIdentifiers_obj state s0 _ _ He) as (s1' & E1' & T).
  rewrite E1 in E1'. injection E1' as <-.
  destruct (tail_rules_obj call l s1 Hp) as (s2' & E2' & _ & D2 & D3 & _).
  rewrite E2 in E2'. injection E2' as <-.
  destruct T as (_ & _ & _ & _ & _ & _ & T7 & T8). simpl in T7, T8.
  assert (Hsame : forall l', is_Some (hp s1 !! l') <-> is_Some (h !! l')).
  { intros l'. destruct (decide (l' = l)) as [-> | Hne].
    - split; [done | auto].
    - by rewrite (T7 _ Hne). }
  assert (Hdom : dom (hp s1) = dom h).
  { apply set_eq. intros l'. rewrite !elem_of_dom. apply Hsame. }
  eexists _, _. split; [reflexivity |]. split.
  - intros l' Hne Hl'. rewrite D2 by (by apply Hsame). by apply T7.
  - intros l' Hl'. destruct (D3 _ Hl') as [H1 | H1].
    + left. by apply Hsame.
    + right. by rewrite <- Hdom.
Qed.

Lemma enforce_frame_witness :
  exists r h', enforce (Ok VNull) Samples.create_issue Samples.labels_bag = (Ok r, h') /\
    (forall l', is_Some (h' !! l') ->
                is_Some (Samples.labels_bag !! l') \/ l' = fresh (dom Samples.labels_bag)).
Proof.
  destruct (enforce_frame VNull Samples.create_issue 1%positive Samples.labels_bag eq_refl)
    as (r & h' & Hr & _ & Hnew).
  { unfold Samples.labels_bag. rewrite lookup_singleton_eq. eauto. }
  exists r, h'. split; [exact Hr | exact Hnew].
Defined.

(** A block whose conditions hold writes the stored identifier. *)
Lemma inject_block_fires state prefix key conn field idkey msg s t l :
  enhanced (res s) = mkToolCall t (PObj l) ->
  startsWith t prefix = true ->
  truthy (default VUndef (deref (hp s) l !! key)) = false ->
  truthy (snapshot_entity state conn field) = true ->
  exists s', inject_block state prefix key conn field idkey msg s = (Ok tt, s') /\
    enhanced (res s') = enhanced (res s) /\
    deref (hp s') l !! key = Some (get (snapshot_entity state conn field) idkey) /\
    In msg (modifications (res s')).
Proof.
  intros He Hs Hc Ht. rewrite (inject_block_exact _ _ _ _ _ _ _ _ _ _ He).
  rewrite Hs, Hc, Ht. simpl. eexists. split; [reflexivity |]. simpl.
  rewrite deref_insert, lookup_insert_eq. split; [done |]. split; [done |].
  apply in_or_app. right. by left.
Qed.

(** A block leaves the other keys and the entries recorded so far. *)
Lemma inject_block_passes state prefix key conn field idkey msg s t l k :
  enhanced (res s) = mkToolCall t (PObj l) ->
  k <> key ->
  exists s', inject_block state prefix key conn field idkey msg s = (Ok tt, s') /\
    enhanced (res s') = enhanced (res s) /\
    deref (hp s') l !! k = deref (hp s) l !! k /\
    (forall m, In m (modifications (res s)) -> In m (modifications (res s'))).
Proof.
  intros He Hk.
  destruct (inject_block_obj state prefix key conn field idkey msg s t l He)
    as (s' & E & T).
  exists s'. split; [done |]. split; [by destruct T as (_ & -> & _) |]. split.
  - apply (touches_only_key _ _ _ _ _ _ T). simpl. intros [-> | []]. done.
  - intros m. apply (touches_only_modification _ _ _ _ _ _ T).
Qed.

(** A block does nothing when the snapshot lacks its entity. *)
Lemma inject_block_no_entity state prefix key conn field idkey msg s t l :
  enhanced (res s) = mkToolCall t (PObj l) ->
  truthy (snapshot_entity state conn field) = false ->
  inject_block state prefix key conn field idkey msg s = (Ok tt, s).
Proof.
  intros He Ht. rewrite (inject_block_exact _ _ _ _ _ _ _ _ _ _ He).
  rewrite Ht. by rewrite andb_false_r.
Qed.

Ltac pass_block state s t l He k :=
  match goal with
  | |- context [bind (inject_block state ?p ?key ?c ?f ?i ?m) _ s] =>
      let s' := fresh "s" in
      let E := fresh "E" in
      let He' := fresh "He" in
      let Hk := fresh "Hk" in
      let Hm := fresh "Hm" in
      destruct (inject_block_passes state p key c f i m s t l k He) as
        (s' & E & He' & Hk & Hm); [discriminate |];
      rewrite He in He';
      erewrite (bind_Ok _ _ s); [| exact E]
  end.

Lemma injectIdentifiers_fires state s t l prefix key conn field idkey msg :
  In (prefix, key, conn, field, idkey, msg) injectionTable ->
  enhanced (res s) = mkToolCall t (PObj l) ->
  startsWith t prefix = true ->
  truthy (default VUndef (deref (hp s) l !! key)) = false ->
  truthy (snapshot_entity state conn field) = true ->
  exists s', injectIdentifiers state s = (Ok tt, s') /\
    deref (hp s') l !! key = Some (get (snapshot_entity state conn field) idkey) /\
    In msg (modifications (res s')).
Proof.
  intros Hrow He Hs Hc Ht. unfold injectIdentifiers.
  simpl in Hrow. destruct Hrow as [[= <- <- <- <- <- <-] | [[= <- <- <- <- <- <-] |
                                  [[= <- <- <- <- <- <-] | [[= <- <- <- <- <- <-] | []]]]].
  - destruct (inject_block_fires state "asana" "workspace" "asana" "workspace" "gid"
                "Injected Asana workspace ID" s t l He Hs Hc Ht) as (s1 & E1 & He1 & V1 & M1).
    rewrite He in He1. erewrite bind_Ok; [| exact E1].
    pass_block state s1 t l He1 "workspace".
    pass_block state s0 t l He0 "workspace".
    destruct (inject_block_passes state "github" "owner" "github" "user" "login"
                "Injected GitHub owner" s2 t l "workspace" He2) as (s3 & E3 & _ & Hk3 & Hm3);
      [discriminate |].
    exists s3. split; [exact E3 |]. split; [congruence | auto].
  - pass_block state s t l He "teamId".
    destruct (inject_block_fires state "linear" "teamId" "linear" "team" "id"
                "Injected Linear team ID" s0 t l He0 Hs) as (s1 & E1 & He1 & V1 & M1);
      [congruence | done |].
    rewrite He0 in He1. erewrite bind_Ok; [| exact E1].
    pass_block state s1 t l He1 "teamId".
    destruct (inject_block_passes state "github" "owner" "github" "user" "login"
                "Injected GitHub owner" s2 t l "teamId" He2) as (s3 & E3 & _ & Hk3 & Hm3);
      [discriminate |].
    exists s3. split; [exact E3 |]. split; [congruence | auto].
  - pass_block state s t l He "workspace_id".
    pass_block state s0 t l He0 "workspace_id".
    destruct (inject_block_fires state "notion" "workspace_id" "notion" "workspace" "id"
                "Injected Notion workspace ID" s1 t l He1 Hs) as (s2 & E2 & He2 & V2 & M2);
      [congruence | done |].
    rewrite He1 in He2. erewrite bind_Ok; [| exact E2].
    destruct (inject_block_passes state "github" "owner" "github" "user" "login"
                "Injected GitHub owner" s2 t l "workspace_id" He2)
      as (s3 & E3 & _ & Hk3 & Hm3); [discriminate |].
    exists s3. split; [exact E3 |]. split; [congruence | auto].
  - pass_block state s t l He "owner".
    pass_block state s0 t l He0 "owner".
    pass_block state s1 t l He1 "owner".
    destruct (inject_block_fires state "github" "owner" "github" "user" "login"
                "Injected GitHub owner" s2 t l He2 Hs) as (s3 & E3 & _ & V3 & M3);
      [congruence | done |].
    exists s3. split; [exact E3 |]. done.
Qed.

Lemma injectIdentifiers_no_identity state s t l :
  enhanced (res s) = mkToolCall t (PObj l) ->
  holds_no_identity state = true ->
  injectIdentifiers state s = (Ok tt, s).
Proof.
  intros He Hn. unfold holds_no_identity in Hn. simpl in Hn.
  repeat (apply andb_prop in Hn as [? Hn]).
  unfold injectIdentifiers, bind.
  repeat (rewrite (inject_block_no_entity _ _ _ _ _ _ _ s t l He);
          [| by apply negb_true_iff]).
  done.
Qed.

(** X3.  Rule 1 at work: when the tool name starts with a connector's
    prefix, the parameter is missing or falsy and the snapshot holds the
    connector's entity, [enforce] sets the parameter to the stored
    identifier and records the injection. *)
Theorem enforce_injects_identifier
    (state : val) (call : ToolCall) (l : loc) (h : heap)
    (prefix key conn field idkey msg : string) :
  In (prefix, key, conn, field, idkey, msg) injectionTable ->
  params call = PObj l ->
  startsWith (tool call) prefix = true ->
  truthy (default VUndef (deref h l !! key)) = false ->
  truthy (snapshot_entity state conn field) = true ->
  exists r h', enforce (Ok state) call h = (Ok r, h') /\
    deref h' l !! key = Some (get (snapshot_entity state conn field) idkey) /\
    In msg (modifications r).
Proof.
  intros Hrow Hp Hs Hc Ht.
  enforce_by_steps state call l h Hp s0 s1 s2 E1 E2 He.
  destruct (injectIdentifiers_fires state s0 _ _ _ _ _ _ _ _ Hrow He Hs Hc Ht)
    as (s1' & E1' & V & M).
  rewrite E1 in E1'. injection E1' as <-.
  destruct (tail_rules_obj call l s1 Hp) as (s2' & E2' & D & _ & _ & Mods & _).
  rewrite E2 in E2'. injection E2' as <-.
  eexists _, _. split; [reflexivity |]. split.
  - rewrite D; [done |]. unfold deref in V. destruct (hp s1 !! l); [eauto |].
    simpl in V. by rewrite lookup_empty in V.
  - rewrite Mods. apply in_or_app. by left.
Qed.

Lemma enforce_injects_identifier_witness :
  exists r h', enforce (Ok Samples.snapshot) Samples.linear_list_issues Samples.zero_team_bag
                 = (Ok r, h') /\
    deref h' 1%positive !! "teamId"
      = Some (get (snapshot_entity Samples.snapshot "linear" "team") "id") /\
    In "Injected Linear team ID" (modifications r).
Proof.
  apply (enforce_injects_identifier Samples.snapshot Samples.linear_list_issues 1%positive
           Samples.zero_team_bag "linear" "teamId" "linear" "team" "id"
           "Injected Linear team ID").
  - simpl. tauto.
  - reflexivity.
  - reflexivity.
  - reflexivity.
  - reflexivity.
Defined.

(** X4.  With a snapshot that holds none of the four entities (no
    calibration stored, or every probe failed), [enforce] changes no
    parameter and records nothing but the pagination and chaining
    entries. *)
Theorem enforce_without_identity (state : val) (call : ToolCall) (l : loc) (h : heap) :
  holds_no_identity state = true ->
  params call = PObj l ->
  is_Some (h !! l) ->
  exists r h', enforce (Ok state) call h = (Ok r, h') /\
    deref h' l = deref h l /\
    modifications r =
      (if requiresPagination call then ["Pagination enforcement enabled"] else []) ++
      (if requiresChaining call then ["Operation chaining configured"] else []).
Proof.
  intros Hn Hp Hl.
  enforce_by_steps state call l h Hp s0 s1 s2 E1 E2 He.
  rewrite (injectIdentifiers_no_identity state s0 _ _ He Hn) in E1. injection E1 as <-.
  destruct (tail_rules_obj call l s0 Hp) as (s2' & E2' & D & _ & _ & Mods & _).
  rewrite E2 in E2'. injection E2' as <-.
  eexists _, _. split; [reflexivity |]. split; [by apply D | exact Mods].
Qed.

Lemma enforce_without_identity_witness :
  exists r h', enforce (Ok VNull) Samples.asana_list_tasks Samples.empty_bag = (Ok r, h') /\
    deref h' 1%positive = deref Samples.empty_bag 1%positive /\
    modifications r = ["Pagination enforcement enabled"].
Proof.
  apply (enforce_without_identity VNull Samples.asana_list_tasks 1%positive
           Samples.empty_bag).
  - reflexivity.
  - reflexivity.
  - unfold Samples.empty_bag. rewrite lookup_singleton_eq. eauto.
Defined.

(** X5.  The trail agrees with the directives: the pagination entry is
    recorded exactly when [enforce_pagination] is set, the chaining entry
    exactly when [chain_operations] is present, and no name is ever
    reported as resolved. *)
Theorem enforce_modifications_agree (state : val) (call : ToolCall) (l : loc) (h : heap) :
  params call = PObj l ->
  exists r h', enforce (Ok state) call h = (Ok r, h') /\
    (In "Pagination enforcement enabled" (modifications r) <->
     enforce_pagination r = Some true) /\
    (In "Operation chaining configured" (modifications r) <->
     is_Some (chain_operations r)) /\
    ~ In "Resolved name to ID" (modifications r).
Proof.
  intros Hp.
  enforce_by_steps state call l h Hp s0 s1 s2 E1 E2 He.
  destruct (injectIdentifiers_obj state s0 _ _ He) as (s1' & E1' & T).
  rewrite E1 in E1'. injection E1' as <-.
  destruct (tail_rules_obj call l s1 Hp) as (s2' & E2' & _ & _ & _ & Mods & Flag & Chain).
  rewrite E2 in E2'. injection E2' as <-.
  destruct T as (_ & _ & T3 & T4 & (extra & Hextra & Hinj) & _). simpl in *.
  rewrite T3 in Flag. rewrite T4 in Chain.
  eexists _, _. split; [reflexivity |].
  rewrite Mods, Hextra, Flag, Chain.
  assert (Hno : forall m, ~ In m injectionMessages -> ~ In m extra).
  { intros m Hm Hin. rewrite Forall_forall in Hinj. apply Hm, Hinj.
    by apply list_elem_of_In. }
  assert (H1 := Hno "Pagination enforcement enabled").
  assert (H2 := Hno "Operation chaining configured").
  assert (H3 := Hno "Resolved name to ID").
  unfold injectionMessages in H1, H2, H3. simpl in H1, H2, H3.
  destruct (requiresPagination call), (requiresChaining call); simpl;
    rewrite ?in_app_iff; simpl; repeat split;
    try (intros _; eauto; fail); try (intros [? [=]]); try discriminate;
    intuition (try discriminate; eauto).
Qed.

Lemma enforce_modifications_agree_witness :
  exists r h', enforce (Ok Samples.snapshot) Samples.create_issue Samples.labels_bag
                 = (Ok r, h') /\
    (In "Pagination enforcement enabled" (modifications r) <->
     enforce_pagination r = Some true) /\
    (In "Operation chaining configured" (modifications r) <->
     is_Some (chain_operations r)) /\
    ~ In "Resolved name to ID" (modifications r).
Proof.
  apply (enforce_modifications_agree Samples.snapshot Samples.create_issue 1%positive
           Samples.labels_bag).
  reflexivity.
Defined.



(* ===================================================================== *)
(** * More on pagination                                                  *)
(* ===================================================================== *)

Lemma consume_cursor response st rs more cur :
  consume response st = Ok (rs, more, cur) -> cur = next_cursor response (cursor st).
Proof.
  unfold next_cursor, consume, read.
  destruct response; simpl; try discriminate; try (by intros [= _ _ <-]).
  destruct (truthy (default VUndef (assoc "nodes" fields))).
  - destruct (spread _); [| discriminate]. by intros [= _ _ <-].
  - destruct (truthy (default VUndef (assoc "data" fields))).
    + destruct (spread _); [| discriminate]. by intros [= _ _ <-].
    + by intros [= _ _ <-].
Qed.

Lemma consume_unrecognised response st :
  unrecognised response = true ->
  consume response st = Ok (results st, hasMore st, cursor st).
Proof.
  unfold unrecognised, consume, read.
  destruct response; simpl; try discriminate; try done.
  intros H. apply andb_prop in H as [Hn Hd].
  apply negb_true_iff in Hn, Hd. by rewrite Hn, Hd.
Qed.

Section PaginationMore.

Variable executeTool : nat -> PageRequest -> outcome val.
Variable t : string.
Variable base : gmap string val.

(** Each request of the loop is built from the cursor the pages before it
    left. *)
Lemma paginate_requests st tr :
  exists new, snd (paginate executeTool t base st tr) = tr ++ new /\
    forall i rq a, new !! i = Some (rq, a) ->
      rq = mkPageRequest t (page_params base (cursor_after (cursor st) (take i new))).
Proof.
  funelim (paginate executeTool t base st tr).
  all: try rewrite <- Heqcall.
  - exists []. simpl. rewrite app_nil_r. split; [done |]. intros i rq a. by destruct i.
  - eexists [_]. simpl. split; [done |].
    intros [| i] rq a; simpl; [by intros [= <- _] | by destruct i].
  - destruct H as (new & Htr & Hreq). simpl in *.
    exists ((page_request t base st, Ok response) :: new).
    split; [by rewrite Htr, <- app_assoc |].
    intros [| i] rq a; simpl; [by intros [= <- _] |].
    intros Hi. rewrite (Hreq _ _ _ Hi).
    by rewrite (consume_cursor _ _ _ _ _ Heq).
  - eexists [_]. simpl. split; [done |].
    intros [| i] rq a; simpl; [by intros [= <- _] | by destruct i].
Qed.

(** A fetch that rejects ends the loop, and the call rejects with it. *)
Lemma paginate_rejection st tr :
  exists new, snd (paginate executeTool t base st tr) = tr ++ new /\
    forall i rq err, new !! i = Some (rq, Throw err) ->
      fst (paginate executeTool t base st tr) = Throw err /\ length new = S i.
Proof.
  funelim (paginate executeTool t base st tr).
  all: try rewrite <- Heqcall.
  - exists []. simpl. rewrite app_nil_r. split; [done |]. intros i rq err. by destruct i.
  - eexists [_]. simpl. split; [done |].
    intros [| i] rq err; simpl; [by intros [= _ <-] | by destruct i].
  - destruct H as (new & Htr & Hrej). simpl in *.
    exists ((page_request t base st, Ok response) :: new).
    split; [by rewrite Htr, <- app_assoc |].
    intros [| i] rq err; simpl; [discriminate |].
    intros Hi. destruct (Hrej _ _ _ Hi) as [-> ->]. done.
  - eexists [_]. simpl. split; [done |].
    intros [| i] rq err; simpl; [discriminate | by destruct i].
Qed.

(** Pages in no known shape: the loop keeps asking until the bound. *)
Lemma paginate_unrecognised st tr :
  (forall n rq, exists v, executeTool n rq = Ok v /\ unrecognised v = true) ->
  truthy (hasMore st) = true ->
  attempts st <= maxPaginationAttempts ->
  exists new, paginate executeTool t base st tr = (Ok (results st), tr ++ new) /\
              length new = maxPaginationAttempts - attempts st.
Proof.
  intros Hall. funelim (paginate executeTool t base st tr).
  all: try rewrite <- Heqcall.
  all: intros Hmore Hle.
  - exists []. rewrite app_nil_r. split; [done |].
    match goal with
    | Hg0 : truthy (hasMore st) && _ = false |- _ =>
        pose proof Hg0 as Hg; rewrite Hmore in Hg; simpl in Hg
    end.
    apply Nat.ltb_ge in Hg. simpl. lia.
  - destruct (Hall (attempts st) (page_request t base st)) as (v & Hv & _). congruence.
  - destruct (Hall (attempts st) (page_request t base st)) as (v & Hv & Hu).
    rewrite Heq0 in Hv. injection Hv as <-.
    rewrite (consume_unrecognised _ _ Hu) in Heq. injection Heq as <- <- <-.
    pose proof (guard_attempts _ _ Hguard) as Hlt.
    destruct (H Hall Hmore) as (new & -> & Hlen); [simpl; lia |].
    exists ((page_request t base st, Ok response) :: new). simpl in *.
    split; [by rewrite <- app_assoc |].
    unfold maxPaginationAttempts in *. lia.
  - destruct (Hall (attempts st) (page_request t base st)) as (v & Hv & Hu).
    rewrite Heq0 in Hv. injection Hv as <-.
    rewrite (consume_unrecognised _ _ Hu) in Heq. discriminate.
Qed.

End PaginationMore.

(** One turn of the loop. *)
Lemma paginate_turn executeTool t base st tr response rs more cur :
  truthy (hasMore st) && (attempts st <? maxPaginationAttempts) = true ->
  executeTool (attempts st) (page_request t base st) = Ok response ->
  consume response st = Ok (rs, more, cur) ->
  paginate executeTool t base st tr
  = paginate executeTool t base (mkPageLoop rs more cur (S (attempts st)))
             (tr ++ [(page_request t base st, Ok response)]).
Proof.
  intros Hg He Hc. funelim (paginate executeTool t base st tr);
    try rewrite <- Heqcall; congruence.
Qed.

(** X7.  With the [executeTool] the sources ship, [executeWithPagination]
    makes exactly one fetch, with a copy of the call's parameters, and
    returns the empty list, whatever the call. *)
Theorem executeWithPagination_mock (h : heap) (call : ToolCall) :
  executeWithPagination executeTool_mock h call
  = (Ok [],
     [(mkPageRequest (tool call) (spread_params h (params call)),
       Ok (VObj [("nodes", VArr []); ("pageInfo", VObj [("hasNextPage", VBool false)])]))]).
Proof.
  unfold executeWithPagination.
  erewrite paginate_turn; [| reflexivity | reflexivity | reflexivity].
  by rewrite paginate_stop.
Qed.

(** X8.  When no answer of the tool runtime has one of the three shapes
    the loop knows, the loop does not stop early: it makes all 100
    fetches and returns the empty list. *)
Theorem pagination_unrecognised_runs_to_bound
    (executeTool : nat -> PageRequest -> outcome val) (h : heap) (call : ToolCall) :
  (forall n rq, exists v, executeTool n rq = Ok v /\ unrecognised v = true) ->
  fst (executeWithPagination executeTool h call) = Ok [] /\
  length (snd (executeWithPagination executeTool h call)) = 100.
Proof.
  intros Hall. unfold executeWithPagination.
  destruct (paginate_unrecognised executeTool (tool call)
              (spread_params h (params call)) (mkPageLoop [] (VBool true) VNull 0) []
              Hall eq_refl) as (new & -> & Hlen).
  - unfold maxPaginationAttempts. simpl. lia.
  - simpl in *. done.
Qed.

Lemma pagination_unrecognised_runs_to_bound_witness :
  fst (executeWithPagination Scenarios.unknown_shape
                             Samples.empty_bag Samples.list_issues) = Ok [] /\
  length (snd (executeWithPagination Scenarios.unknown_shape
                                     Samples.empty_bag Samples.list_issues)) = 100.
Proof.
  apply (pagination_unrecognised_runs_to_bound Scenarios.unknown_shape).
  intros n rq. eexists. split; reflexivity.
Defined.

(** X9.  Every request of the loop names the tool of the call and carries
    a copy of its parameters; the cursor left by the pages fetched before
    it, when truthy, is added under [cursor], [after] and [offset], and
    nothing is added otherwise (so the first request adds nothing). *)
Theorem pagination_requests
    (executeTool : nat -> PageRequest -> outcome val) (h : heap) (call : ToolCall)
    (i : nat) (rq : PageRequest) (a : outcome val) :
  snd (executeWithPagination executeTool h call) !! i = Some (rq, a) ->
  req_tool rq = tool call /\
  (if truthy (cursor_after VNull (take i (snd (executeWithPagination executeTool h call))))
   then forall k, req_params rq !! k =
          if bool_decide (k = "cursor" \/ k = "after" \/ k = "offset")
          then Some (cursor_after VNull
                       (take i (snd (executeWithPagination executeTool h call))))
          else spread_params h (params call) !! k
   else req_params rq = spread_params h (params call)).
Proof.
  unfold executeWithPagination.
  destruct (paginate_requests executeTool (tool call) (spread_params h (params call))
              (mkPageLoop [] (VBool true) VNull 0) []) as (new & -> & Hreq).
  simpl in *. intros Hi. rewrite (Hreq _ _ _ Hi). simpl. split; [done |].
  unfold page_params.
  destruct (truthy (cursor_after VNull (take i new))); [| done].
  intros k. case_bool_decide as Hk.
  - destruct Hk as [-> | [-> | ->]].
    + rewrite lookup_insert_ne by done. rewrite lookup_insert_ne by done.
      by rewrite lookup_insert_eq.
    + rewrite lookup_insert_ne by done. by rewrite lookup_insert_eq.
    + by rewrite lookup_insert_eq.
  - rewrite !lookup_insert_ne; [done | | |]; intros <-; tauto.
Qed.

Lemma pagination_requests_witness :
  req_tool Scenarios.second_request = tool Samples.list_issues /\
  req_params Scenarios.second_request !! "after" = Some (VStr "p2").
Proof.
  destruct (pagination_requests Scenarios.two_pages Samples.empty_bag Samples.list_issues
              1 Scenarios.second_request (Ok (VArr [VNum 2])))
    as [Htool Hparams].
  { vm_compute. reflexivity. }
  split; [exact Htool |].
  vm_compute in Hparams. specialize (Hparams "after"). exact Hparams.
Defined.

(** The cursor a page leaves, by its shape. *)
Lemma next_cursor_data fields items c :
  truthy (get (VObj fields) "nodes") = false ->
  truthy (get (VObj fields) "data") = true ->
  spread (get (VObj fields) "data") = Ok items ->
  next_cursor (VObj fields) c = get (VObj fields) "next_page".
Proof.
  intros Hn Hd Hs. unfold next_cursor, consume, read. simpl in *.
  by rewrite Hn, Hd, Hs.
Qed.

Lemma next_cursor_nodes fields items c :
  truthy (get (VObj fields) "nodes") = true ->
  spread (get (VObj fields) "nodes") = Ok items ->
  next_cursor (VObj fields) c = opt_get (get (VObj fields) "pageInfo") "endCursor".
Proof.
  intros Hn Hs. unfold next_cursor, consume, read. simpl in *.
  by rewrite Hn, Hs.
Qed.

(** X10.  A fetch that rejects is the last one, and the call rejects
    with its error: the items collected so far are not returned. *)
Theorem pagination_rejection_propagates
    (executeTool : nat -> PageRequest -> outcome val) (h : heap) (call : ToolCall)
    (i : nat) (rq : PageRequest) (err : Error) :
  snd (executeWithPagination executeTool h call) !! i = Some (rq, Throw err) ->
  fst (executeWithPagination executeTool h call) = Throw err /\
  length (snd (executeWithPagination executeTool h call)) = S i.
Proof.
  unfold executeWithPagination.
  destruct (paginate_rejection executeTool (tool call) (spread_params h (params call))
              (mkPageLoop [] (VBool true) VNull 0) []) as (new & Htr & Hrej).
  rewrite Htr. simpl. apply Hrej.
Qed.

Lemma pagination_rejection_propagates_witness :
  fst (executeWithPagination Scenarios.second_fetch_fails
                             Samples.empty_bag Samples.list_issues)
    = Throw (mkError "429") /\
  length (snd (executeWithPagination Scenarios.second_fetch_fails
                                     Samples.empty_bag Samples.list_issues)) = 2.
Proof.
  apply (pagination_rejection_propagates Scenarios.second_fetch_fails
           Samples.empty_bag Samples.list_issues 1 Scenarios.second_request).
  vm_compute. reflexivity.
Defined.

(* ===================================================================== *)
(** * More on the snapshot store                                          *)
(* ===================================================================== *)

Import StateLoader.

(** What [saveHealth] does, by what its write does. *)
Lemma saveHealth_outcome (env : Env) (health : HealthStatus) (w : World) :
  match health_write_failure env with
  | Some e => exists w', saveHealth env health w = (Throw e, w')
  | None =>
      saveHealth env health w
      = (Ok tt, mkWorld (<[healthPath := JSON_stringify_health env health]> (files w))
                        (console w ++ ["Health status saved"]) (clock w))
  end.
Proof.
  unfold saveHealth, health_write_failure.
  destruct (mkdir_error env dataDir) as [e0 |] eqn:Hmk.
  { eexists. erewrite try_catch_Throw; [reflexivity |].
    apply bind_Throw. unfold fs_mkdir. by rewrite Hmk. }
  destruct (writeFile_error env healthPath) as [e1 |] eqn:Hwr.
  { eexists. erewrite try_catch_Throw; [reflexivity |].
    erewrite bind_Ok; [| unfold fs_mkdir; by rewrite Hmk].
    apply bind_Throw. unfold fs_writeFile. by rewrite Hwr. }
  erewrite try_catch_Ok; [reflexivity |].
  erewrite bind_Ok; [| unfold fs_mkdir; by rewrite Hmk].
  erewrite bind_Ok; [| unfold fs_writeFile; by rewrite Hwr].
  reflexivity.
Qed.

(** X11.  [saveHealth] rejects exactly when creating the data directory
    or writing the health file fails, with that failure; otherwise it
    replaces the health file and touches neither the calibration file
    nor the YAML export. *)
Theorem saveHealth_fails_iff_write (env : Env) (health : HealthStatus) (w : World) :
  (forall e, (exists w', saveHealth env health w = (Throw e, w')) <->
             health_write_failure env = Some e) /\
  (health_write_failure env = None ->
   exists w', saveHealth env health w = (Ok tt, w') /\
     files w' !! healthPath = Some (JSON_stringify_health env health) /\
     files w' !! calibrationPath = files w !! calibrationPath /\
     files w' !! yamlExportPath = files w !! yamlExportPath).
Proof.
  pose proof (saveHealth_outcome env health w) as H.
  destruct (health_write_failure env) as [e0 |].
  - destruct H as (w0 & H). split; [| discriminate].
    intros e. split.
    + intros (w' & Hw'). congruence.
    + intros [= <-]. eauto.
  - split.
    + intros e. split; [| discriminate]. intros (w' & Hw'). congruence.
    + intros _. eexists. split; [exact H |]. simpl.
      rewrite lookup_insert_eq. by rewrite !lookup_insert_ne.
Qed.

Lemma saveHealth_fails_iff_write_witness :
  exists w', saveHealth Scenarios.quiet_env
               (mkHealthStatus 0 ohealthy (mkConnectors None None None None))
               Scenarios.exported_world = (Ok tt, w') /\
    files w' !! healthPath = Some "{health}" /\
    files w' !! calibrationPath = None /\
    files w' !! yamlExportPath = Some "calibration: old".
Proof.
  destruct (saveHealth_fails_iff_write Scenarios.quiet_env
              (mkHealthStatus 0 ohealthy (mkConnectors None None None None))
              Scenarios.exported_world) as [_ Hok].
  destruct (Hok eq_refl) as (w' & Hs & H1 & H2 & H3).
  exists w'. split; [exact Hs |]. split; [exact H1 |]. split.
  - rewrite H2. reflexivity.
  - rewrite H3. reflexivity.
Defined.

(** X12.  When the YAML printer throws, [save] still stores the JSON
    snapshot and returns, logging the failed export, and the YAML export
    of an earlier run stays in place: the two files then describe
    different snapshots. *)
Theorem save_keeps_stale_export
    (env : Env) (state : CalibrationState) (w : World) (e : Error) :
  primary_failure env = None ->
  yaml_dump env state = Throw e ->
  exists w', save env state w = (Ok tt, w') /\
    files w' = <[calibrationPath := JSON_stringify env state]> (files w) /\
    files w' !! yamlExportPath = files w !! yamlExportPath /\
    In "Failed to export YAML" (console w').
Proof.
  intros Hp Hy. unfold primary_failure in Hp.
  destruct (mkdir_error env dataDir) eqn:Hmk; [discriminate |].
  eexists. split.
  - unfold save.
    erewrite try_catch_Ok; [reflexivity |].
    erewrite bind_Ok; [| unfold fs_mkdir; by rewrite Hmk].
    erewrite bind_Ok; [| unfold fs_writeFile; by rewrite Hp].
    erewrite bind_Ok.
    2:{ unfold exportYAML. erewrite try_catch_Throw; [reflexivity |].
        apply bind_Throw. unfold lift. by rewrite Hy. }
    reflexivity.
  - simpl. split; [done |]. split; [by rewrite lookup_insert_ne |].
    apply in_or_app. left. apply in_or_app. right. by left.
Qed.

Lemma save_keeps_stale_export_witness :
  exists w', save Scenarios.yaml_broken_env Scenarios.blank_state Scenarios.exported_world
               = (Ok tt, w') /\
    files w' !! calibrationPath = Some "{calibration}" /\
    files w' !! yamlExportPath = Some "calibration: old".
Proof.
  destruct (save_keeps_stale_export Scenarios.yaml_broken_env Scenarios.blank_state
              Scenarios.exported_world (mkError "YAMLException") eq_refl eq_refl)
    as (w' & Hsave & Hfiles & Hyaml & _).
  exists w'. split; [exact Hsave |]. split.
  - rewrite Hfiles. reflexivity.
  - rewrite Hyaml. reflexivity.
Defined.

(** What [load] does on a world where the calibration file holds
    [data]. *)
Lemma load_stored (rd : Reader) (w : World) (data : string) (v : val) :
  files w !! calibrationPath = Some data ->
  readFile_error rd calibrationPath = None ->
  JSON_parse rd data = Ok v ->
  load rd w = (Ok v, w).
Proof.
  intros Hf Hr Hp. unfold load, read_json, fs_readFile. by rewrite Hf, Hr, Hp.
Qed.

(** X13.  Round trip, last write wins: after two [save]s, [load] returns
    what [JSON.parse] reads in the text of the second snapshot. *)
Theorem save_then_load
    (env : Env) (rd : Reader) (first second : CalibrationState) (w : World) (v : val) :
  primary_failure env = None ->
  readFile_error rd calibrationPath = None ->
  JSON_parse rd (JSON_stringify env second) = Ok v ->
  exists w1 w2,
    save env first w = (Ok tt, w1) /\
    save env second w1 = (Ok tt, w2) /\
    load rd w2 = (Ok v, w2).
Proof.
  intros Hp Hr Hj.
  pose proof (save_outcome env first w) as H1. rewrite Hp in H1.
  destruct H1 as (w1 & H1 & _).
  pose proof (save_outcome env second w1) as H2. rewrite Hp in H2.
  destruct H2 as (w2 & H2 & Hfile & _).
  exists w1, w2. split; [done |]. split; [done |].
  by apply (load_stored rd w2 _ v Hfile).
Qed.

Lemma save_then_load_witness :
  exists w1 w2,
    save Scenarios.quiet_env Scenarios.blank_state Scenarios.blank_world = (Ok tt, w1) /\
    save Scenarios.quiet_env Scenarios.other_state w1 = (Ok tt, w2) /\
    load Scenarios.quiet_reader w2 = (Ok (VObj [("timestamp", VStr "t0")]), w2).
Proof.
  apply (save_then_load Scenarios.quiet_env Scenarios.quiet_reader
           Scenarios.blank_state Scenarios.other_state Scenarios.blank_world);
    reflexivity.
Defined.

Lemma load_missing (rd : Reader) (w : World) :
  files w !! calibrationPath = None ->
  load rd w = (Ok VNull, mkWorld (files w) (console w ++ ["No calibration state found"])
                                 (clock w)).
Proof. intros Hf. unfold load, read_json, fs_readFile. by rewrite Hf. Qed.

(** X14.  [load] on a world without calibration file returns [null] and
    says so on the console; a file that cannot be read, or whose text
    [JSON.parse] rejects, makes [load] reject with that error, unless the
    read error is itself coded [ENOENT]. *)
Theorem load_outcomes (rd : Reader) (w : World) :
  (files w !! calibrationPath = None ->
   load rd w = (Ok VNull, mkWorld (files w) (console w ++ ["No calibration state found"])
                                  (clock w))) /\
  (forall data t, files w !! calibrationPath = Some data ->
     readFile_error rd calibrationPath = Some t -> is_ENOENT t = false ->
     fst (load rd w) = Throw (thrown_error t)) /\
  (forall data e, files w !! calibrationPath = Some data ->
     readFile_error rd calibrationPath = None -> JSON_parse rd data = Throw e ->
     fst (load rd w) = Throw e).
Proof.
  split; [apply load_missing |].
  unfold load, read_json, fs_readFile. split.
  - intros data t -> -> ->. reflexivity.
  - intros data e -> -> ->. reflexivity.
Qed.

Lemma load_outcomes_witness :
  load Scenarios.quiet_reader Scenarios.blank_world
  = (Ok VNull, mkWorld ∅ ["No calibration state found"] 0).
Proof.
  destruct (load_outcomes Scenarios.quiet_reader Scenarios.blank_world) as [Hmissing _].
  exact (Hmissing eq_refl).
Defined.

(** X15.  Without a calibration file, [needsRecalibration] answers
    [true], whatever the age limit and whatever the arithmetic of the
    engine. *)
Theorem needsRecalibration_without_file
    (number : Type) (hours_since : val -> nat -> number)
    (exceeds : number -> number -> bool)
    (rd : Reader) (maxAgeHours : number) (w : World) :
  files w !! calibrationPath = None ->
  fst (needsRecalibration number hours_since exceeds rd maxAgeHours w) = Ok true.
Proof.
  intros Hf.
  assert (Hage : getCalibrationAge number hours_since rd w
                 = (Ok None, mkWorld (files w)
                                     (console w ++ ["No calibration state found"]) (clock w))).
  { unfold getCalibrationAge. erewrite bind_Ok; [| by apply load_missing]. reflexivity. }
  unfold needsRecalibration. by rewrite (bind_Ok _ _ _ _ _ Hage).
Qed.

Lemma needsRecalibration_without_file_witness :
  fst (needsRecalibration Z (fun _ t => Z.of_nat t) Z.gtb
         Scenarios.quiet_reader 24%Z Scenarios.blank_world) = Ok true.
Proof.
  apply (needsRecalibration_without_file Z (fun _ t => Z.of_nat t) Z.gtb).
  reflexivity.
Defined.

(** X16.  Round trip for health: after [saveHealth], [getStatus] returns
    what [JSON.parse] reads in the text of that snapshot, and without a
    health file it returns [null] without logging. *)
Theorem saveHealth_then_getStatus
    (env : Env) (rd : Reader) (health : HealthStatus) (w : World) (v : val) :
  (health_write_failure env = None ->
   readFile_error rd healthPath = None ->
   JSON_parse rd (JSON_stringify_health env health) = Ok v ->
   exists w1, saveHealth env health w = (Ok tt, w1) /\ getStatus rd w1 = (Ok v, w1)) /\
  (files w !! healthPath = None -> getStatus rd w = (Ok VNull, w)).
Proof.
  split.
  - intros Hw Hr Hj. pose proof (saveHealth_outcome env health w) as H.
    rewrite Hw in H. eexists. split; [exact H |].
    unfold getStatus, loadHealth, read_json, fs_readFile. simpl.
    by rewrite lookup_insert_eq, Hr, Hj.
  - intros Hf. unfold getStatus, loadHealth, read_json, fs_readFile. by rewrite Hf.
Qed.

Lemma saveHealth_then_getStatus_witness :
  exists w1,
    saveHealth Scenarios.quiet_env
      (mkHealthStatus 0 ohealthy (mkConnectors None None None None))
      Scenarios.blank_world = (Ok tt, w1) /\
    getStatus Scenarios.quiet_reader w1 = (Ok (VObj [("overall", VStr "healthy")]), w1).
Proof.
  destruct (saveHealth_then_getStatus Scenarios.quiet_env Scenarios.quiet_reader
              (mkHealthStatus 0 ohealthy (mkConnectors None None None None))
              Scenarios.blank_world (VObj [("overall", VStr "healthy")])) as [Hround _].
  exact (Hround eq_refl eq_refl eq_refl).
Defined.

(* ===================================================================== *)
(** * More on the calibrator                                              *)
(* ===================================================================== *)

Ltac run_monad :=
  unfold try_catch, bind, lift, ret, now, gets, console_log, console_error,
    modify, failedStatus, read, read0, settle, throw;
  simpl.

(** X17.  The Asana probe in full.  When both calls answer with objects
    it is [authenticated], stamped with the clock, without error, with
    the user's [name], [email] and [gid] and the first workspace of the
    list as the default one, or [null] when the list is empty.  When a
    call rejects, or answers [null] or [undefined] (reading [user.name],
    or [workspaces[0]], then throws), the handler runs on what was
    thrown: the probe is [failed] with the [message] of that value, and
    rejects when the value is one whose [message] cannot be read. *)
Theorem calibrateAsana_result (c : Clients) (w : World) :
  match asana_getCurrentUser c, asana_listWorkspaces c with
  | Ok u, Ok ws =>
      if nullish u then handled (calibrateAsana c) w (TypeError u "name")
      else if nullish ws then handled (calibrateAsana c) w (TypeError ws "0")
      else
        exists cs w', calibrateAsana c w = (Ok cs, w') /\
          last_verified cs = clock w /\
          status cs = authenticated /\
          error cs = None /\
          user cs = Some (VObj [("name", get u "name"); ("email", get u "email");
                                ("gid", get u "gid")]) /\
          workspace cs =
            Some (if truthy (get0 ws)
                  then VObj [("name", get (get0 ws) "name"); ("gid", get (get0 ws) "gid");
                             ("is_organization", get (get0 ws) "is_organization")]
                  else VNull)
  | Ok _, Throw e => handled (calibrateAsana c) w e
  | Throw e, _ => handled (calibrateAsana c) w e
  end.
Proof.
  unfold calibrateAsana.
  destruct (asana_getCurrentUser c) as [u | e].
  2:{ eapply handled_of_body; reflexivity. }
  destruct (asana_listWorkspaces c) as [ws | e].
  2:{ eapply handled_of_body; reflexivity. }
  destruct (nullish u) eqn:Hnu.
  { eapply handled_of_body; [body_runs; rewrite Hnu; reflexivity | reflexivity]. }
  destruct (nullish ws) eqn:Hnws.
  { eapply handled_of_body; [body_runs; rewrite Hnu; simpl; rewrite Hnws; reflexivity
                            | reflexivity]. }
  eexists _, _. split.
  - apply try_catch_Ok. body_runs. rewrite Hnu. simpl. rewrite Hnws. reflexivity.
  - by simpl.
Qed.

(** A rejection without a reason makes the probe reject; answers from
    both calls sign in, with the first workspace as the default one. *)
Lemma calibrateAsana_result_witness :
  (exists w',
     calibrateAsana Scenarios.clients_bare_rejection Scenarios.blank_world
       = (Throw (TypeError VUndef "message"), w')) /\
  (exists cs w',
     calibrateAsana Scenarios.clients_up Scenarios.blank_world = (Ok cs, w') /\
     status cs = authenticated /\
     workspace cs = Some (VObj [("name", VStr "Main"); ("gid", VStr "W1");
                                ("is_organization", VUndef)])).
Proof.
  split.
  - exact (calibrateAsana_result Scenarios.clients_bare_rejection Scenarios.blank_world).
  - destruct (calibrateAsana_result Scenarios.clients_up Scenarios.blank_world)
      as (cs & w' & Hp & _ & Hs & _ & _ & Hw).
    exists cs, w'. split; [exact Hp |]. split; [exact Hs | exact Hw].
Defined.

(** An empty workspace list still signs in, with no default workspace. *)
Example calibrateAsana_empty_list :
  (fun cs => (status cs, workspace cs))
    <$> match fst (calibrateAsana Scenarios.clients_partial Scenarios.blank_world) with
        | Ok cs => Some cs
        | Throw _ => None
        end
  = Some (authenticated, Some VNull).
Proof. vm_compute. reflexivity. Qed.

Ltac body_rewrites :=
  body_runs; repeat match goal with H : nullish _ = _ |- _ => rewrite H; simpl end.

(** Whatever a handled probe settles to is [failed]. *)
Lemma handled_settles_failed (probe : M World ConnectorStatus) (w : World) (e : Error) :
  handled probe w e ->
  forall cs w', probe w = (Ok cs, w') -> status cs = failed.
Proof.
  unfold handled. intros H cs w' Hp. destruct (message e).
  - destruct H as (cs0 & w0 & H0 & (Hs & _) & _). congruence.
  - destruct H as (w0 & H0). congruence.
Qed.

(** The ways the GitHub probe ends. *)
Lemma calibrateGitHub_cases (env : Env) (c : Clients) (w : World) :
  match github_getAuthenticatedUser c, github_listRepositories c with
  | Ok u, Ok repos =>
      if nullish u then handled (calibrateGitHub env c) w (TypeError u "login")
      else
        match js_plus env (get u "public_repos") (get u "total_private_repos") with
        | Ok total =>
            exists cs w', calibrateGitHub env c w = (Ok cs, w') /\
                          status cs = authenticated
        | Throw e => handled (calibrateGitHub env c) w e
        end
  | Ok _, Throw e => handled (calibrateGitHub env c) w e
  | Throw e, _ => handled (calibrateGitHub env c) w e
  end.
Proof.
  unfold calibrateGitHub.
  destruct (github_getAuthenticatedUser c) as [u | e].
  2:{ eapply handled_of_body; reflexivity. }
  destruct (github_listRepositories c) as [repos | e].
  2:{ eapply handled_of_body; reflexivity. }
  destruct (nullish u) eqn:Hnu.
  { eapply handled_of_body; [body_rewrites; reflexivity | reflexivity]. }
  destruct (js_plus env (get u "public_repos") (get u "total_private_repos"))
    as [total | e] eqn:Hplus.
  - eexists _, _.
    split; [apply try_catch_Ok; body_rewrites; rewrite Hplus; reflexivity | reflexivity].
  - eapply handled_of_body; [body_rewrites; rewrite Hplus; reflexivity | reflexivity].
Qed.

Ltac no_sign_in H :=
  split; [split |];
  [ let Hp := fresh in let Hs := fresh in
    intros (? & ? & Hp & Hs); rewrite (handled_settles_failed _ _ _ H _ _ Hp) in Hs;
    discriminate
  | idtac
  | let Hp := fresh in
    intros ? ? Hp; right; exact (handled_settles_failed _ _ _ H _ _ Hp) ].

(** X18.  The GitHub probe settles as [authenticated] exactly when both
    of its calls succeed (the repository list too, though nothing of it
    is kept), the user is an object and the repository counts add up;
    and whatever it settles to is [authenticated] or [failed]. *)
Theorem calibrateGitHub_authenticated_iff (env : Env) (c : Clients) (w : World) :
  ((exists cs w', calibrateGitHub env c w = (Ok cs, w') /\ status cs = authenticated) <->
   exists u repos total,
     github_getAuthenticatedUser c = Ok u /\ github_listRepositories c = Ok repos /\
     nullish u = false /\
     js_plus env (get u "public_repos") (get u "total_private_repos") = Ok total) /\
  (forall cs w', calibrateGitHub env c w = (Ok cs, w') ->
     status cs = authenticated \/ status cs = failed).
Proof.
  pose proof (calibrateGitHub_cases env c w) as H.
  destruct (github_getAuthenticatedUser c) as [u | e].
  2:{ no_sign_in H. intros (? & ? & ? & [=] & _). }
  destruct (github_listRepositories c) as [repos | e].
  2:{ no_sign_in H. intros (? & ? & ? & _ & [=] & _). }
  destruct (nullish u) eqn:Hnu.
  { no_sign_in H. intros (? & ? & ? & [= <-] & _ & ? & _). congruence. }
  destruct (js_plus env (get u "public_repos") (get u "total_private_repos"))
    as [total | e] eqn:Hplus.
  - destruct H as (cs0 & w0 & Hp0 & Hs0). split; [split |].
    + intros _. by exists u, repos, total.
    + intros _. by exists cs0, w0.
    + intros cs w' Hp. left. congruence.
  - no_sign_in H. intros (? & ? & ? & [= <-] & _ & _ & ?). congruence.
Qed.

Lemma calibrateGitHub_authenticated_iff_witness :
  exists cs w',
    calibrateGitHub Scenarios.quiet_env Scenarios.clients_up Scenarios.blank_world
      = (Ok cs, w') /\
    status cs = authenticated.
Proof.
  apply (calibrateGitHub_authenticated_iff Scenarios.quiet_env Scenarios.clients_up
           Scenarios.blank_world).
  eexists _, _, _. repeat split; reflexivity.
Defined.

Example calibrateGitHub_repository_list_fails :
  (fun cs => (status cs, error cs))
    <$> match fst (calibrateGitHub Scenarios.quiet_env Scenarios.clients_partial
                                   Scenarios.blank_world) with
        | Ok cs => Some cs
        | Throw _ => None
        end
  = Some (failed, Some (VStr "rate limited")).
Proof. vm_compute. reflexivity. Qed.

(** The ways the Notion probe ends. *)
Lemma calibrateNotion_cases (c : Clients) (w : World) :
  match notion_getBotUser c with
  | Ok b =>
      if nullish b then handled (calibrateNotion c) w (TypeError b "bot")
      else if nullish (get b "bot")
      then handled (calibrateNotion c) w (TypeError (get b "bot") "workspace_name")
      else if nullish (get (get b "bot") "owner")
      then handled (calibrateNotion c) w (TypeError (get (get b "bot") "owner") "user")
      else if nullish (get (get (get b "bot") "owner") "user")
      then handled (calibrateNotion c) w
             (TypeError (get (get (get b "bot") "owner") "user") "person")
      else if nullish (get (get (get (get b "bot") "owner") "user") "person")
      then handled (calibrateNotion c) w
             (TypeError (get (get (get (get b "bot") "owner") "user") "person") "email")
      else exists cs w', calibrateNotion c w = (Ok cs, w') /\ status cs = authenticated
  | Throw e => handled (calibrateNotion c) w e
  end.
Proof.
  unfold calibrateNotion.
  destruct (notion_getBotUser c) as [b | e].
  2:{ eapply handled_of_body; reflexivity. }
  destruct (nullish b) eqn:H1.
  { eapply handled_of_body; [body_rewrites; reflexivity | reflexivity]. }
  destruct (nullish (get b "bot")) eqn:H2.
  { eapply handled_of_body; [body_rewrites; reflexivity | reflexivity]. }
  destruct (nullish (get (get b "bot") "owner")) eqn:H3.
  { eapply handled_of_body; [body_rewrites; reflexivity | reflexivity]. }
  destruct (nullish (get (get (get b "bot") "owner") "user")) eqn:H4.
  { eapply handled_of_body; [body_rewrites; reflexivity | reflexivity]. }
  destruct (nullish (get (get (get (get b "bot") "owner") "user") "person")) eqn:H5.
  { eapply handled_of_body; [body_rewrites; reflexivity | reflexivity]. }
  eexists _, _.
  split; [apply try_catch_Ok; body_rewrites; reflexivity | reflexivity].
Qed.

(** X19.  The Notion probe settles as [authenticated] exactly when the
    bot call succeeds and the answer has the whole chain
    [bot.owner.user.person]: a bot whose owner is not a person is not
    signed in although the call went through; and whatever the probe
    settles to is [authenticated] or [failed]. *)
Theorem calibrateNotion_authenticated_iff (c : Clients) (w : World) :
  ((exists cs w', calibrateNotion c w = (Ok cs, w') /\ status cs = authenticated) <->
   exists b,
     notion_getBotUser c = Ok b /\
     nullish b = false /\
     nullish (get b "bot") = false /\
     nullish (get (get b "bot") "owner") = false /\
     nullish (get (get (get b "bot") "owner") "user") = false /\
     nullish (get (get (get (get b "bot") "owner") "user") "person") = false) /\
  (forall cs w', calibrateNotion c w = (Ok cs, w') ->
     status cs = authenticated \/ status cs = failed).
Proof.
  pose proof (calibrateNotion_cases c w) as H.
  destruct (notion_getBotUser c) as [b | e].
  2:{ no_sign_in H. intros (? & [=] & _). }
  destruct (nullish b) eqn:H1.
  { no_sign_in H. intros (? & [= <-] & ? & _); congruence. }
  destruct (nullish (get b "bot")) eqn:H2.
  { no_sign_in H. intros (? & [= <-] & _ & ? & _); congruence. }
  destruct (nullish (get (get b "bot") "owner")) eqn:H3.
  { no_sign_in H. intros (? & [= <-] & _ & _ & ? & _); congruence. }
  destruct (nullish (get (get (get b "bot") "owner") "user")) eqn:H4.
  { no_sign_in H. intros (? & [= <-] & _ & _ & _ & ? & _); congruence. }
  destruct (nullish (get (get (get (get b "bot") "owner") "user") "person")) eqn:H5.
  { no_sign_in H. intros (? & [= <-] & _ & _ & _ & _ & ?); congruence. }
  destruct H as (cs0 & w0 & Hp0 & Hs0). split; [split |].
  - intros _. by exists b.
  - intros _. by exists cs0, w0.
  - intros cs w' Hp. left. congruence.
Qed.

Lemma calibrateNotion_authenticated_iff_witness :
  exists cs w',
    calibrateNotion Scenarios.clients_up Scenarios.blank_world = (Ok cs, w') /\
    status cs = authenticated.
Proof.
  apply (calibrateNotion_authenticated_iff Scenarios.clients_up Scenarios.blank_world).
  eexists. repeat split; reflexivity.
Defined.

(** The four probes together, with what each of them guarantees when
    the failures have messages. *)
Lemma probes_all_settle_invariant (env : Env) (c : Clients) (w : World) :
  failures_have_messages env c ->
  exists a l g n w',
    promise_all4 (calibrateAsana c) (calibrateLinear c)
                 (calibrateGitHub env c) (calibrateNotion c) w
    = (Ok (a, l, g, n), w') /\
    clock w' = clock w /\
    status_invariant a /\ status_invariant l /\ status_invariant g /\ status_invariant n.
Proof.
  intros Hf.
  destruct (probe_ends_settles env c _ w Hf (calibrateAsana_ends env c w))
    as (a & w1 & Ha & Ia & _ & T1).
  destruct (probe_ends_settles env c _ w1 Hf (calibrateLinear_ends env c w1))
    as (l & w2 & Hl & Il & _ & T2).
  destruct (probe_ends_settles env c _ w2 Hf (calibrateGitHub_ends env c w2))
    as (g & w3 & Hg & Ig & _ & T3).
  destruct (probe_ends_settles env c _ w3 Hf (calibrateNotion_ends env c w3))
    as (n & w4 & Hn & In' & _ & T4).
  exists a, l, g, n, w4. split.
  - unfold promise_all4.
    erewrite bind_Ok; [| by apply settle_Ok].
    erewrite bind_Ok; [| by apply settle_Ok].
    erewrite bind_Ok; [| by apply settle_Ok].
    erewrite bind_Ok; [| by apply settle_Ok].
    reflexivity.
  - split; [congruence | done].
Qed.

(** X20.  When whatever the clients reject with has a message and the
    snapshot can be stored, [calibrate] returns, and what it returns is
    what it stored: the calibration file holds the text of the returned
    snapshot, which is stamped with the clock at the start of the run
    and whose four entries keep the status invariant. *)
Theorem calibrate_stores_what_it_returns (env : Env) (c : Clients) (w : World) :
  failures_have_messages env c ->
  primary_failure env = None ->
  exists st w', calibrate env c w = (Ok st, w') /\
    files w' !! calibrationPath = Some (JSON_stringify env st) /\
    timestamp st = clock w /\
    length (values (connectors st)) = 4 /\
    Forall status_invariant (values (connectors st)).
Proof.
  intros Hf Hp.
  set (w0 := mkWorld (files w) (console w ++ ["Starting MCP Connector Calibration..."])
                     (clock w)).
  destruct (probes_all_settle_invariant env c w0 Hf)
    as (a & l & g & n & w1 & Hall & _ & Ia & Il & Ig & In').
  set (st := mkCalibrationState (clock w)
               (mkConnectors (Some a) (Some l) (Some g) (Some n))).
  pose proof (save_outcome env st w1) as Hs. rewrite Hp in Hs.
  destruct Hs as (w2 & Hs & Hfile & _).
  assert (Hrun : calibrate env c w
                 = (save env st ;;; console_log "Calibration Complete" ;;; ret st)%js w1).
  { unfold calibrate. erewrite bind_Ok; [| reflexivity].
    erewrite bind_Ok; [| reflexivity].
    erewrite bind_Ok; [| exact Hall]. reflexivity. }
  exists st. eexists. split.
  - rewrite Hrun. erewrite bind_Ok; [| exact Hs]. reflexivity.
  - split; [exact Hfile |]. split; [reflexivity |]. split; [reflexivity |].
    change (Forall status_invariant [a; l; g; n]).
    repeat (constructor; [done |]). constructor.
Qed.

Lemma calibrate_stores_what_it_returns_witness :
  exists st w', calibrate Scenarios.quiet_env Scenarios.clients_partial Scenarios.blank_world
                  = (Ok st, w') /\
    files w' !! calibrationPath = Some (JSON_stringify Scenarios.quiet_env st) /\
    timestamp st = clock Scenarios.blank_world /\
    length (values (connectors st)) = 4 /\
    Forall status_invariant (values (connectors st)).
Proof.
  apply (calibrate_stores_what_it_returns Scenarios.quiet_env Scenarios.clients_partial
           Scenarios.blank_world).
  - split.
    + intros e He. simpl in He.
      repeat match goal with
        | H : _ \/ _ |- _ => destruct H as [H | H]
        | H : Ok _ = Throw _ |- _ => discriminate H
        | H : Throw _ = Throw _ |- _ =>
            injection H as <-; eexists; split; [reflexivity | discriminate]
        | H : False |- _ => destruct H
        end.
    + intros a b e He. discriminate He.
  - reflexivity.
Defined.

(** X21.  [verify] answers [true] exactly when the identity call of each
    of the four connectors succeeds; without a stored snapshot it
    answers [false]; when the snapshot cannot be loaded it rejects; and
    in no case does it write a file. *)
Theorem verify_result (c : Clients) (w : World) :
  (forall st, exists w', verify (Ok (Some st)) c w = (Ok (all_identities_ok c), w') /\
                         files w' = files w) /\
  (exists w', verify (Ok None) c w = (Ok false, w') /\ files w' = files w) /\
  (forall e, exists w', verify (Throw e) c w = (Throw e, w') /\ files w' = files w).
Proof.
  unfold verify, promise_all4, verifyAsana, verifyLinear, verifyGitHub, verifyNotion,
    all_identities_ok, identity_ok.
  run_monad. split; [| split].
  - intros st.
    destruct (asana_getCurrentUser c), (linear_getCurrentUser c),
      (github_getAuthenticatedUser c), (notion_getBotUser c); simpl;
      eexists; split; reflexivity.
  - eexists. split; reflexivity.
  - intros e. eexists. split; reflexivity.
Qed.

Example verify_partial :
  fst (verify (Ok (Some Scenarios.blank_state)) Scenarios.clients_partial
              Scenarios.blank_world) = Ok false.
Proof. vm_compute. reflexivity. Qed.

(* ===================================================================== *)
(** * More on the health monitor                                          *)
(* ===================================================================== *)

(** A health check on a connector whose identity call settles to [o]. *)
Lemma healthOf_verify (o : outcome val) (w : World) :
  healthOf (try_catch (_ <~ lift o ;; ret true) (fun _ => ret false)) w
  = (Ok (mkConnectorHealth (if identity_ok o then healthy else hfailed)
                           (Z.of_nat (clock w) - Z.of_nat (clock w)) (clock w) None), w).
Proof. unfold healthOf. run_monad. by destruct o. Qed.

(** X22.  A health check always settles; its status is [healthy] when
    the identity call of the connector succeeded and [failed] when it did
    not, never [warning]; and it never carries an error message, the
    failure having been swallowed by the verification it calls. *)
Theorem health_checks_result (c : Clients) (w : World) :
  Forall (fun check : (M World ConnectorHealth) * outcome val =>
            exists ch w', fst check w = (Ok ch, w') /\
              hstatus ch = (if identity_ok (snd check) then healthy else hfailed) /\
              hstatus ch <> warning /\
              herror ch = None)
         [(checkAsana c, asana_getCurrentUser c);
          (checkLinear c, linear_getCurrentUser c);
          (checkGitHub c, github_getAuthenticatedUser c);
          (checkNotion c, notion_getBotUser c)].
Proof.
  repeat (constructor; [
    simpl; unfold checkAsana, checkLinear, checkGitHub, checkNotion,
             verifyAsana, verifyLinear, verifyGitHub, verifyNotion;
    rewrite healthOf_verify; eexists _, _; split; [reflexivity |]; simpl;
    split; [done |]; split; [| done];
    match goal with |- context [identity_ok ?o] => by destruct (identity_ok o) end |]).
  constructor.
Qed.

(** The four checks of a cycle. *)
Lemma checks_all_settle (c : Clients) (w : World) :
  exists c0 c1 c2 c3,
    promise_all4 (checkAsana c) (checkLinear c) (checkGitHub c) (checkNotion c) w
    = (Ok (c0, c1, c2, c3), w) /\
    map hstatus [c0; c1; c2; c3]
    = map (fun o => if identity_ok o then healthy else hfailed)
          [asana_getCurrentUser c; linear_getCurrentUser c;
           github_getAuthenticatedUser c; notion_getBotUser c].
Proof.
  eexists _, _, _, _. split.
  - unfold promise_all4, checkAsana, checkLinear, checkGitHub, checkNotion,
      verifyAsana, verifyLinear, verifyGitHub, verifyNotion.
    erewrite bind_Ok; [| apply settle_Ok, healthOf_verify].
    erewrite bind_Ok; [| apply settle_Ok, healthOf_verify].
    erewrite bind_Ok; [| apply settle_Ok, healthOf_verify].
    erewrite bind_Ok; [| apply settle_Ok, healthOf_verify].
    reflexivity.
  - reflexivity.
Qed.

Lemma determineOverall_checks (c : Clients) :
  determineOverall
    (map (fun o => if identity_ok o then healthy else hfailed)
         [asana_getCurrentUser c; linear_getCurrentUser c;
          github_getAuthenticatedUser c; notion_getBotUser c])
  = if all_identities_ok c then ohealthy else degraded.
Proof.
  unfold all_identities_ok. simpl.
  by destruct (identity_ok (asana_getCurrentUser c)),
    (identity_ok (linear_getCurrentUser c)),
    (identity_ok (github_getAuthenticatedUser c)),
    (identity_ok (notion_getBotUser c)).
Qed.

(** X23.  A health-check cycle whose snapshot can be stored returns a
    snapshot that is [healthy] when all four identity calls succeeded
    and [degraded] otherwise, never [warning]; the alert is raised
    exactly in the second case; and the health file holds the text of
    the returned snapshot.  The cycle rejects only when that write
    fails. *)
Theorem runHealthCheck_result (env : Env) (c : Clients) (w : World) :
  (health_write_failure env = None ->
   exists hs w' logged,
     runHealthCheck env c w = (Ok hs, w') /\
     overall hs = (if all_identities_ok c then ohealthy else degraded) /\
     files w' !! healthPath = Some (JSON_stringify_health env hs) /\
     console w' = console w ++ logged /\
     (In "ALERT: Connector health degraded!" logged <-> all_identities_ok c = false)) /\
  (forall e w', runHealthCheck env c w = (Throw e, w') -> health_write_failure env = Some e).
Proof.
  set (w0 := mkWorld (files w) (console w ++ ["Running health check..."]) (clock w)).
  destruct (checks_all_settle c w0) as (c0 & c1 & c2 & c3 & Hall & Hst).
  set (hs := assembleHealth (clock w) (c0, c1, c2, c3)).
  assert (Hov : overall hs = if all_identities_ok c then ohealthy else degraded).
  { unfold hs, assembleHealth.
    change (determineOverall (map hstatus [c0; c1; c2; c3]) =
            if all_identities_ok c then ohealthy else degraded).
    rewrite Hst. apply determineOverall_checks. }
  assert (Hrun : exists w1 logged,
            runHealthCheck env c w = (saveHealth env hs ;;; ret hs)%js w1 /\
            console w1 = console w ++ logged /\
            (In "ALERT: Connector health degraded!" logged <-> all_identities_ok c = false)).
  { assert (Hbody : runHealthCheck env c w
                    = (logHealthStatus hs ;;;
                       (match overall hs with
                        | ohealthy => ret tt
                        | _ => alertOnFailure hs
                        end) ;;;
                       saveHealth env hs ;;; ret hs)%js w0).
    { unfold runHealthCheck.
      erewrite bind_Ok; [| reflexivity].
      erewrite bind_Ok; [| reflexivity].
      erewrite bind_Ok; [| exact Hall]. reflexivity. }
    rewrite Hbody. unfold logHealthStatus, alertOnFailure. rewrite Hov.
    destruct (all_identities_ok c) eqn:Hok.
    - exists (mkWorld (files w)
                ((console w ++ ["Running health check..."]) ++ ["Overall Health: HEALTHY"])
                (clock w)),
             ["Running health check..."; "Overall Health: HEALTHY"].
      split; [reflexivity |]. simpl. split; [by rewrite <- app_assoc |].
      split; [| discriminate].
      intros [[=] | [[=] | []]].
    - destruct (0 <? length (filter (fun ch => is_failed (hstatus ch) = true)
                                    (values (hconnectors hs)))) eqn:Hany.
      + exists (mkWorld (files w)
                  ((((console w ++ ["Running health check..."]) ++
                     ["Overall Health: DEGRADED"]) ++
                    ["ALERT: Connector health degraded!"]) ++ ["Failed connectors"])
                  (clock w)),
               ["Running health check..."; "Overall Health: DEGRADED";
                "ALERT: Connector health degraded!"; "Failed connectors"].
        split.
        { erewrite bind_Ok; [| reflexivity].
          erewrite bind_Ok.
          2:{ erewrite bind_Ok; [| reflexivity]. rewrite ?Hany. reflexivity. }
          reflexivity. }
        simpl. split; [by rewrite <- !app_assoc |].
        split; [done | tauto].
      + exists (mkWorld (files w)
                  (((console w ++ ["Running health check..."]) ++
                    ["Overall Health: DEGRADED"]) ++
                   ["ALERT: Connector health degraded!"])
                  (clock w)),
               ["Running health check..."; "Overall Health: DEGRADED";
                "ALERT: Connector health degraded!"].
        split.
        { erewrite bind_Ok; [| reflexivity].
          erewrite bind_Ok.
          2:{ erewrite bind_Ok; [| reflexivity]. rewrite ?Hany. reflexivity. }
          reflexivity. }
        simpl. split; [by rewrite <- !app_assoc |].
        split; [done | tauto]. }
  destruct Hrun as (w1 & logged & -> & Hc1 & Halert).
  pose proof (saveHealth_outcome env hs w1) as Hs.
  destruct (health_write_failure env) as [e0 |].
  - destruct Hs as (w2 & Hs). split; [discriminate |].
    intros e w'. erewrite bind_Throw; [| exact Hs]. congruence.
  - split.
    + intros _. exists hs. eexists. exists (logged ++ ["Health status saved"]). split.
      * erewrite bind_Ok; [| exact Hs]. reflexivity.
      * split; [done |]. simpl. rewrite lookup_insert_eq. split; [done |].
        rewrite Hc1. split; [by rewrite <- app_assoc |].
        rewrite in_app_iff. rewrite <- Halert. simpl. split; [| tauto].
        intros [? | [[=] | []]]. done.
    + intros e w'. erewrite bind_Ok; [| exact Hs]. discriminate.
Qed.

Lemma runHealthCheck_result_witness :
  exists hs w' logged,
    runHealthCheck Scenarios.quiet_env Scenarios.clients_partial Scenarios.blank_world
      = (Ok hs, w') /\
    overall hs = degraded /\
    console w' = console Scenarios.blank_world ++ logged /\
    In "ALERT: Connector health degraded!" logged.
Proof.
  destruct (runHealthCheck_result Scenarios.quiet_env Scenarios.clients_partial
              Scenarios.blank_world) as [Hok _].
  destruct (Hok eq_refl) as (hs & w' & logged & Hrun & Hov & _ & Hcon & Halert).
  exists hs, w', logged. split; [exact Hrun |]. split; [exact Hov |].
  split; [exact Hcon |]. apply Halert. reflexivity.
Defined.

(** [n] rounds of [start(); stop()] on a stopped monitor. *)
Lemma restarts_fields (env : Env) (c : Clients) (n : nat) (m : Monitor) :
  monitoringActive m = false ->
  intervals (run env c (restarts n) m) = intervals m + n /\
  cycles (run env c (restarts n) m) = cycles m + n /\
  monitoringActive (run env c (restarts n) m) = false.
Proof.
  revert m. induction n as [| n IH]; intros m Hm.
  - simpl. split; [lia |]. split; [lia | done].
  - change (run env c (restarts (S n)) m)
      with (run env c (restarts n) (stop (start env c m))).
    destruct (start_when_idle env c m Hm) as (S1 & C1 & _).
    destruct (stop_fields (start env c m)) as (S2 & C2 & A2).
    destruct (IH _ A2) as (I1 & I2 & I3).
    rewrite I1, I2, I3, S2, C2, S1, C1. split; [lia |]. split; [lia | done].
Qed.

(** X24.  Timers pile up: after [n] rounds of [start(); stop()] a new
    monitor has [n] timers registered, none of them cleared; one more
    [start()] makes it [n + 1], and each period then runs [n + 1] check
    cycles. *)
Theorem restarts_pile_up_timers (env : Env) (c : Clients) (w : World) (n : nat) :
  intervals (run env c (restarts n) (fresh_monitor w)) = n /\
  intervals (run env c (restarts n ++ [Start]) (fresh_monitor w)) = S n /\
  cycles (run env c (restarts n ++ [Start; Elapse]) (fresh_monitor w))
    = cycles (run env c (restarts n ++ [Start]) (fresh_monitor w)) + S n.
Proof.
  destruct (restarts_fields env c n (fresh_monitor w) eq_refl) as (I & _ & A).
  simpl in I. split; [exact I |].
  unfold run in *. rewrite !fold_left_app. simpl.
  destruct (start_when_idle env c _ A) as (S1 & _ & A1).
  destruct (elapse_cycles env c _ A1) as (E & _).
  rewrite E, S1, I. done.
Qed.

(** X25.  After [stop()] the timers still fire but run nothing: a period
    that goes by leaves the monitor and the world as they were. *)
Theorem stopped_monitor_runs_nothing (env : Env) (c : Clients) (m : Monitor) :
  elapse env c (stop m) = stop m /\
  intervals (stop m) = intervals m.
Proof.
  split; [| done]. unfold elapse.
  generalize (intervals (stop m)) as n. induction n as [| n IH]; [done |].
  simpl. rewrite IH. reflexivity.
Qed.

(* ===================================================================== *)
(** * Calls without parameters, and starting twice                        *)
(* ===================================================================== *)

(** A prefix starts with the first character of the string. *)
Lemma prefix_head (c a : Ascii.ascii) (p t : string) :
  String.prefix (String c p) (String a t) = true -> c = a.
Proof.
  cbn [String.prefix]. by destruct (Ascii.ascii_dec c a).
Qed.

(** Two of the four connector prefixes never fit the same tool name. *)
Lemma prefixes_exclusive (t p q : string) :
  In p ["asana"; "linear"; "notion"; "github"] ->
  In q ["asana"; "linear"; "notion"; "github"] ->
  startsWith t p = true -> startsWith t q = true -> p = q.
Proof.
  unfold startsWith. intros Hp Hq H1 H2. destruct t as [| a t]; simpl in Hp, Hq.
  - destruct Hp as [<- | [<- | [<- | [<- | []]]]]; discriminate.
  - destruct Hp as [<- | [<- | [<- | [<- | []]]]];
      destruct Hq as [<- | [<- | [<- | [<- | []]]]]; try reflexivity;
      apply prefix_head in H1; apply prefix_head in H2; subst; discriminate.
Qed.

(** X26.  A call whose [params] is [null] or [undefined] makes [enforce]
    reject with the [TypeError] of the first property read on it, and
    changes no bag of the store: rule 1 reads the identifier of the
    connector ([workspace] for a tool name that starts with [asana],
    [teamId] for [linear], [workspace_id] for [notion], [owner] for
    [github]); with none of the four prefixes rule 1 reads nothing and
    rule 2 reads [name]. *)
Theorem enforce_rejects_without_params (state : val) (call : ToolCall) (h : heap) :
  (forall l, params call <> PObj l) ->
  (startsWith (tool call) "asana" = true ->
   enforce (Ok state) call h
   = (Throw (TypeError (nullish_val (params call)) "workspace"), h)) /\
  (startsWith (tool call) "linear" = true ->
   enforce (Ok state) call h
   = (Throw (TypeError (nullish_val (params call)) "teamId"), h)) /\
  (startsWith (tool call) "notion" = true ->
   enforce (Ok state) call h
   = (Throw (TypeError (nullish_val (params call)) "workspace_id"), h)) /\
  (startsWith (tool call) "github" = true ->
   enforce (Ok state) call h
   = (Throw (TypeError (nullish_val (params call)) "owner"), h)) /\
  (startsWith (tool call) "asana" = false ->
   startsWith (tool call) "linear" = false ->
   startsWith (tool call) "notion" = false ->
   startsWith (tool call) "github" = false ->
   enforce (Ok state) call h
   = (Throw (TypeError (nullish_val (params call)) "name"), h)).
Proof.
  intros Hp.
  assert (Hex : forall p q, In p ["asana"; "linear"; "notion"; "github"] ->
                            In q ["asana"; "linear"; "notion"; "github"] ->
                            p <> q -> startsWith (tool call) p = true ->
                            startsWith (tool call) q = false).
  { intros p q Hip Hiq Hne Hsp. destruct (startsWith (tool call) q) eqn:Hsq; [| done].
    destruct Hne. by apply (prefixes_exclusive (tool call)). }
  assert (Hrun : enforce (Ok state) call h
    = (Throw (TypeError (nullish_val (params call))
                (if startsWith (tool call) "asana" then "workspace"
                 else if startsWith (tool call) "linear" then "teamId"
                 else if startsWith (tool call) "notion" then "workspace_id"
                 else if startsWith (tool call) "github" then "owner"
                 else "name")), h)).
  { unfold enforce, enforce_rules, injectIdentifiers, inject_block,
      resolveIdentifiers, hasNameInsteadOfId, bind, gets, read_param, ret.
    simpl. destruct (params call) as [l | |]; [by destruct (Hp l) | |];
      (repeat (destruct (startsWith (tool call) _); simpl; [reflexivity |]));
      reflexivity. }
  rewrite Hrun. repeat split.
  - by intros ->.
  - intros H. rewrite (Hex "linear" "asana"), H; simpl; try tauto; done.
  - intros H. rewrite (Hex "notion" "asana"), (Hex "notion" "linear"), H; simpl; try tauto; done.
  - intros H. rewrite (Hex "github" "asana"), (Hex "github" "linear"),
      (Hex "github" "notion"), H; simpl; try tauto; done.
  - by intros -> -> -> ->.
Qed.

(** [linear.list_issues] with [params: null] fails on [teamId];
    [get_issue] with [params: undefined] fails on [name]. *)
Lemma enforce_rejects_without_params_witness :
  enforce (Ok Samples.snapshot) (mkToolCall "linear.list_issues" PNull) Samples.empty_bag
    = (Throw (mkError "Cannot read properties of null (reading 'teamId')"),
       Samples.empty_bag) /\
  enforce (Ok Samples.snapshot) (mkToolCall "get_issue" PUndefined) Samples.empty_bag
    = (Throw (mkError "Cannot read properties of undefined (reading 'name')"),
       Samples.empty_bag).
Proof.
  split.
  - apply (enforce_rejects_without_params Samples.snapshot
             (mkToolCall "linear.list_issues" PNull) Samples.empty_bag);
      [discriminate | reflexivity].
  - apply (enforce_rejects_without_params Samples.snapshot
             (mkToolCall "get_issue" PUndefined) Samples.empty_bag);
      [discriminate | reflexivity | reflexivity | reflexivity | reflexivity].
Defined.

(** X27.  [start()] always leaves the monitor monitoring, and a second
    [start()] right after it registers no further timer and runs no
    further check. *)
Theorem start_twice_is_start_once (env : Env) (c : Clients) (m : Monitor) :
  monitoringActive (start env c m) = true /\
  intervals (start env c (start env c m)) = intervals (start env c m) /\
  cycles (start env c (start env c m)) = cycles (start env c m).
Proof.
  assert (Ha : monitoringActive (start env c m) = true).
  { destruct (monitoringActive m) eqn:Hm.
    - by destruct (start_when_active env c m Hm) as (_ & _ & ->).
    - by destruct (start_when_idle env c m Hm) as (_ & _ & ->). }
  split; [exact Ha |].
  destruct (start_when_active env c _ Ha) as (-> & -> & _). done.
Qed.
